(** * Leader election on etcd: a shallow embedding of [src/election.ts]

    The election session of [election.ts] is a small state machine whose
    every step is a call into an external store (transactions, range reads,
    leases, watches).  The embedding keeps the two apart:

    - the session fields are a record, [Session], threaded explicitly;
    - every call that leaves the class is a node of a program tree, [Prog],
      that carries the request and the session as it stands at that point;
      the store is not modelled: a run is taken against an arbitrary
      [Handler], which answers each request (resolving or rejecting it), so
      a theorem quantified over handlers holds for every behaviour of the
      store, failures included;
    - [throw], [try]/[catch] and [try]/[finally] are the combinators of a
      state-and-exception monad [M] over [Prog].

    One logical flow runs at a time (the class is not written for
    concurrent calls on one instance): a run is the sequential execution of
    one method, and an [await] that never settles has no run.  The
    notifications that reach the class from outside (a lost lease, a new
    listener) are methods of their own, [onLeaseLost] and [onNewListener],
    run between two flows. *)

From Stdlib Require Import String Ascii List ZArith Bool Lia.
From Stdlib Require Import Decimal DecimalString DecimalZ.
From Stdlib Require Import Sorted Permutation.
Import ListNotations.
Local Open Scope string_scope.
Local Open Scope list_scope.

Set Implicit Arguments.

(** ** The data the class handles *)

(** A namespace of the client is a chain of key prefixes:
    [parent.namespace(prefix)]. *)
Inductive Namespace : Type :=
| RootNamespace
| SubNamespace (parent : Namespace) (prefix : string).

(** Client-side handles: a [Lease] object and a [Watcher] object. *)
Inductive Lease : Type := LeaseObj (id : nat).
Inductive Watcher : Type := WatcherObj (id : nat).

(** The fields of a key-value pair that [campaign] reads. *)
Record KeyValue : Type := mkKeyValue {
  kv_key : string;
  create_revision : string;
  kv_value : string
}.

(** The responses of the operations of a transaction. *)
Inductive ResponseOp : Type :=
| response_range (kvs : list KeyValue)
| response_put
| response_delete_range.

Record TxnResponse : Type := mkTxnResponse {
  header_revision : string;
  succeeded : bool;
  responses : list ResponseOp
}.

(** The right-hand side of a comparison: [campaign] passes the number [0],
    [proclaim] and [resign] pass the revision string. *)
Inductive CompareValue : Type :=
| CmpNumber (n : Z)
| CmpString (s : string).

(** [.if(key, 'Create', '==', value)] *)
Record Compare : Type := mkCompare {
  cmp_key : string;
  cmp_target : string;
  cmp_op : string;
  cmp_value : CompareValue
}.

Inductive Op : Type :=
| OpPut (key value lease_id : string)
| OpGet (key : string)
| OpDelete (key : string).

(** [ns.if(..).then(..).else(..).commit()] *)
Record Txn : Type := mkTxn {
  txn_namespace : Namespace;
  txn_if : Compare;
  txn_then : list Op;
  txn_else : list Op
}.

Inductive SortOrder : Type := Ascend | Descend.

(** [ns.getAll().maxCreateRevision(r).sort('Create', order).keys()] *)
Record RangeQuery : Type := mkRangeQuery {
  rq_namespace : Namespace;
  rq_maxCreateRevision : option string;
  rq_sort_target : string;
  rq_sort_order : SortOrder
}.

Inductive WatchTarget : Type :=
| WatchKey (key : string)
| WatchPrefix (prefix : string).

(** The errors a method can raise.  A failure of the store is opaque to the
    class and is kept apart from the two errors the class constructs. *)
Inductive Error : Type :=
| EtcdNoLeaderError
| EtcdNotLeaderError
| TypeError
| StoreFailure (why : string).

(** The private fields of the class, lines 37-43. *)
Record Session : Type := mkSession {
  lease : option Lease;
  leaseId : string;
  _leaderKey : string;
  _leaderRevision : string;
  _isCampaigning : bool;
  _isObserving : bool
}.

(** The getters, lines 45-49. *)
Definition leaderKey (s : Session) : string := _leaderKey s.
Definition leaderRevision (s : Session) : string := _leaderRevision s.
Definition isReady (s : Session) : bool := Nat.ltb 0 (String.length (leaseId s)).
Definition isCampaigning (s : Session) : bool := _isCampaigning s.
Definition isObserving (s : Session) : bool := _isObserving s.

(** The state of a freshly constructed object. *)
Definition new_session : Session :=
  mkSession None "" "" "" false false.

Definition set_lease (l : option Lease) (s : Session) : Session :=
  mkSession l (leaseId s) (_leaderKey s) (_leaderRevision s)
            (_isCampaigning s) (_isObserving s).
Definition set_leaseId (i : string) (s : Session) : Session :=
  mkSession (lease s) i (_leaderKey s) (_leaderRevision s)
            (_isCampaigning s) (_isObserving s).
Definition set_leaderKey (k : string) (s : Session) : Session :=
  mkSession (lease s) (leaseId s) k (_leaderRevision s)
            (_isCampaigning s) (_isObserving s).
Definition set_leaderRevision (r : string) (s : Session) : Session :=
  mkSession (lease s) (leaseId s) (_leaderKey s) r
            (_isCampaigning s) (_isObserving s).
Definition set_isCampaigning (b : bool) (s : Session) : Session :=
  mkSession (lease s) (leaseId s) (_leaderKey s) (_leaderRevision s)
            b (_isObserving s).
Definition set_isObserving (b : bool) (s : Session) : Session :=
  mkSession (lease s) (leaseId s) (_leaderKey s) (_leaderRevision s)
            (_isCampaigning s) b.

(** ** Calls that leave the class *)

(** An awaited call either resolves with a value or rejects. *)
Inductive Reply (X : Type) : Type :=
| Resolved (x : X)
| Rejected (why : string).
Arguments Rejected {X} why.

Inductive Request : Type :=
(* namespace.lease(ttl) *)
| NewLease (ns : Namespace) (ttl : Z)
(* lease.on('lost', () => this.onLeaseLost()) *)
| LeaseOnLost (l : Lease)
(* lease.removeAllListeners() *)
| LeaseRemoveAllListeners (l : Lease)
(* await lease.grant() *)
| LeaseGrant (l : Lease)
(* await lease.revoke() *)
| LeaseRevoke (l : Lease)
(* await txn.commit() *)
| TxnCommit (t : Txn)
(* await query.keys() *)
| RangeKeys (q : RangeQuery)
(* await ns.get(key).string() *)
| GetString (ns : Namespace) (key : string)
(* await ns.watch().key(k).create(), await ns.watch().prefix(p).create() *)
| WatchCreate (ns : Namespace) (t : WatchTarget)
(* the promise settled by the watcher's 'delete' or 'error' event *)
| AwaitDeleteOrError (w : Watcher)
(* the promise settled by the watcher's 'put' or 'error' event *)
| AwaitPutOrError (w : Watcher)
(* await watcher.cancel() *)
| WatchCancel (w : Watcher)
(* this.emit('leader', key) *)
| EmitLeader (key : string)
(* this.emit('error', error); the emitter throws when no 'error' listener
   is registered, or when one of them throws *)
| EmitError (e : Error)
(* this.listenerCount('leader') *)
| ListenerCountLeader.

(** What each call hands back: awaited calls may reject, the synchronous
    ones of the client return a value; for [emit('error', ..)] the answer
    tells whether the emitter returned or threw. *)
Definition Answer (r : Request) : Type :=
  match r with
  | NewLease _ _ => Lease
  | LeaseOnLost _ => unit
  | LeaseRemoveAllListeners _ => unit
  | LeaseGrant _ => Reply string
  | LeaseRevoke _ => Reply unit
  | TxnCommit _ => Reply TxnResponse
  | RangeKeys _ => Reply (list string)
  | GetString _ _ => Reply (option string)
  | WatchCreate _ _ => Reply Watcher
  | AwaitDeleteOrError _ => Reply unit
  | AwaitPutOrError _ => Reply string
  | WatchCancel _ => Reply unit
  | EmitLeader _ => unit
  | EmitError _ => Reply unit
  | ListenerCountLeader => nat
  end.

(** A program: it is done, or it makes a call, at a given session state,
    and goes on with the answer. *)
Inductive Prog (A : Type) : Type :=
| Done (a : A)
| Call (at_session : Session) (r : Request) (k : Answer r -> Prog A).
Arguments Done {A} a.
Arguments Call {A} at_session r k.

Fixpoint bindP {A B : Type} (p : Prog A) (f : A -> Prog B) : Prog B :=
  match p with
  | Done a => f a
  | Call s r k => Call s r (fun x => bindP (k x) f)
  end.

(** ** The monad of a method body *)

Inductive Result (A : Type) : Type :=
| Ok (a : A)
| Raise (e : Error).
Arguments Raise {A} e.

Definition M (A : Type) : Type := Session -> Prog (Session * Result A).

Definition ret {A : Type} (a : A) : M A := fun s => Done (s, Ok a).
Definition throw {A : Type} (e : Error) : M A := fun s => Done (s, Raise e).

Definition bind {A B : Type} (m : M A) (f : A -> M B) : M B :=
  fun s => bindP (m s) (fun sr =>
    match snd sr with
    | Ok a => f a (fst sr)
    | Raise e => Done (fst sr, Raise e)
    end).

Declare Scope election_scope.
Delimit Scope election_scope with election.
Notation "x <- c1 ;; c2" := (bind c1 (fun x => c2))
  (at level 61, c1 at next level, right associativity) : election_scope.
Notation "c1 ;; c2" := (bind c1 (fun _ => c2))
  (at level 61, right associativity) : election_scope.
Local Open Scope election_scope.

(** [this] *)
Definition this : M Session := fun s => Done (s, Ok s).
(** [this.f = v] *)
Definition assign (f : Session -> Session) : M unit :=
  fun s => Done (f s, Ok tt).

(** A synchronous call of the client. *)
Definition perform (r : Request) : M (Answer r) :=
  fun s => Call s r (fun x => Done (s, Ok x)).

(** [await] of a promise: a rejection is raised as a store failure. *)
Definition settle {X : Type} (a : Reply X) : M X :=
  match a with
  | Resolved x => ret x
  | Rejected why => throw (StoreFailure why)
  end.

(** [try { m } catch (error) { h error }] *)
Definition try_catch {A : Type} (m : M A) (h : Error -> M A) : M A :=
  fun s => bindP (m s) (fun sr =>
    match snd sr with
    | Ok a => Done (fst sr, Ok a)
    | Raise e => h e (fst sr)
    end).

(** [try { m } finally { f }]: [f] runs on both exits; if [f] raises, its
    error replaces the outcome of [m]. *)
Definition try_finally {A : Type} (m : M A) (f : M unit) : M A :=
  fun s => bindP (m s) (fun sr =>
    bindP (f (fst sr)) (fun sr' =>
      match snd sr' with
      | Ok _ => Done (fst sr', snd sr)
      | Raise e => Done (fst sr', Raise e)
      end)).

(** A promise nobody awaits, in tail position: its flow runs, its
    rejection is dropped. *)
Definition detached (m : M unit) : M unit :=
  fun s => bindP (m s) (fun sr => Done (fst sr, Ok tt)).

(** ** Runs *)

Definition Event : Type := (Session * Request)%type.

Definition Handler (W : Type) : Type :=
  forall r : Request, W -> Answer r * W.

Record Run (W A : Type) : Type := mkRun {
  final : Session;
  result : Result A;
  world : W;
  trace : list Event
}.

Fixpoint run {W A : Type} (h : Handler W) (p : Prog A) (w : W)
  : A * W * list Event :=
  match p with
  | Done a => (a, w, [])
  | Call s r k =>
      let aw := h r w in
      let out := run h (k (fst aw)) (snd aw) in
      (fst (fst out), snd (fst out), (s, r) :: snd out)
  end.

Definition exec {W A : Type} (h : Handler W) (m : M A) (s : Session) (w : W)
  : Run W A :=
  let out := run h (m s) w in
  mkRun (fst (fst (fst out))) (snd (fst (fst out))) (snd (fst out)) (snd out).

(** ** Revision arithmetic *)

(** Modelled from the spec: the [bignumber.js] package is not part of the
    sources.  Revisions are decimal integer strings; a [BigNumber] built
    from one is the integer it denotes, exactly, whatever its size;
    [minus] is exact subtraction and [toString] prints the plain decimal
    numeral (the notation the package uses below 10^21, which covers every
    64-bit revision).  A string that is not a decimal integer gives [NaN]. *)
Module BigNumber.

(** Modelled from the spec: a [BigNumber] is an exact integer, or [NaN]. *)
Definition t : Type := option Z.

(** Modelled from the spec: [new BigNumber(s)], of a decimal integer
    string. *)
Definition of_string (s : string) : t :=
  option_map Z.of_int (NilZero.int_of_string s).

(** Modelled from the spec: [x.minus(n)], exact. *)
Definition minus (x : t) (n : Z) : t :=
  option_map (fun z => (z - n)%Z) x.

(** Modelled from the spec: [x.toString()], the plain decimal numeral. *)
Definition toString (x : t) : string :=
  match x with
  | Some z => NilZero.string_of_int (Z.to_int z)
  | None => "NaN"
  end.

End BigNumber.

(** Modelled from the spec: the revision string of an integer, as the
    store's client hands revisions over (64-bit integers in decimal). *)
Definition revision_string (z : Z) : string :=
  NilZero.string_of_int (Z.to_int z).

(** ** The class [Election] *)

(** The constructor's public readonly parameters. *)
Record Election : Type := mkElection {
  parent : Namespace;
  name : string;
  ttl : Z
}.

(** [Election.prefix] *)
Definition Election_prefix : string := "election".

Notation "'await' r" := (bind (perform r) (fun a => settle a))
  (at level 10, r at level 9) : election_scope.

Section ElectionClass.

Variable el : Election.

(** Lines 151-153. *)
Definition getPrefix : string :=
  Election_prefix ++ "/" ++ name el ++ "/".

(** [this.namespace], line 55. *)
Definition namespace : Namespace := SubNamespace (parent el) getPrefix.

(** Lines 59-65. *)
Definition initialize : M unit :=
  s <- this;;
  match lease s with
  | None =>
      l <- perform (NewLease namespace (ttl el));;
      assign (set_lease (Some l));;
      perform (LeaseOnLost l);;
      id <- await (LeaseGrant l);;
      assign (set_leaseId id)
  | Some _ => ret tt
  end.

(** The transaction of [proclaim], lines 106-109. *)
Definition proclaim_txn (s : Session) (value : string) : Txn :=
  mkTxn namespace
        (mkCompare (leaseId s) "Create" "==" (CmpString (_leaderRevision s)))
        [OpPut (leaseId s) value (leaseId s)]
        [].

(** Lines 101-115. *)
Definition proclaim (value : string) : M unit :=
  s <- this;;
  if negb (_isCampaigning s) then throw EtcdNotLeaderError
  else
    r <- await (TxnCommit (proclaim_txn s value));;
    if negb (succeeded r) then
      assign (set_leaderKey "");;
      throw EtcdNotLeaderError
    else ret tt.

(** The transaction of [resign], lines 122-125. *)
Definition resign_txn (s : Session) : Txn :=
  mkTxn namespace
        (mkCompare (leaseId s) "Create" "==" (CmpString (_leaderRevision s)))
        [OpDelete (leaseId s)]
        [].

(** Lines 138-140. *)
Definition clear_candidacy (s : Session) : Session :=
  set_isCampaigning false (set_leaderRevision "" (set_leaderKey "" s)).

(** Lines 117-141.  The [return] of line 129 leaves the method before the
    three assignments at its end. *)
Definition resign : M unit :=
  s <- this;;
  if negb (isCampaigning s) then ret tt
  else
    r <- await (TxnCommit (resign_txn s));;
    if negb (succeeded r) then
      s1 <- this;;
      match lease s1 with
      | None => ret tt
      | Some l =>
          await (LeaseRevoke l);;
          l' <- perform (NewLease namespace (ttl el));;
          assign (set_lease (Some l'));;
          perform (LeaseOnLost l');;
          assign (set_leaseId "");;
          assign clear_candidacy
      end
    else assign clear_candidacy.

(** The query of [getLeader] and of [observe], lines 144 and 183. *)
Definition leader_query : RangeQuery :=
  mkRangeQuery namespace None "Create" Ascend.

(** Lines 143-149. *)
Definition getLeader : M string :=
  result <- await (RangeKeys leader_query);;
  match result with
  | [] => throw EtcdNoLeaderError
  | first :: _ => ret (getPrefix ++ first)%string
  end.

(** Lines 242-255. *)
Definition waitForDelete (ns : Namespace) (key : string) : M unit :=
  watcher <- await (WatchCreate ns (WatchKey key));;
  try_finally (await (AwaitDeleteOrError watcher))
              (await (WatchCancel watcher)).

(** One task of [waitForDeletes], lines 266-272. *)
Definition waitForDeletes_task (ns : Namespace) (key : string) : M unit :=
  v <- await (GetString ns key);;
  match v with
  | None => ret tt
  | Some _ => waitForDelete ns key
  end.

(** The loop of lines 274-279: run [task], then shift the next one off
    [tasks]; an empty array shifts [undefined] and ends the loop. *)
Fixpoint waitForDeletes_loop (task : M unit) (tasks : list (M unit))
  : M unit :=
  task;;
  match tasks with
  | [] => ret tt
  | next :: rest => waitForDeletes_loop next rest
  end.

(** Lines 257-279. *)
Definition waitForDeletes (ns : Namespace) (keys : list string) : M unit :=
  match keys with
  | [] => ret tt
  | [key] => waitForDelete ns key
  | _ =>
      match map (waitForDeletes_task ns) keys with
      | [] => ret tt
      | task :: tasks => waitForDeletes_loop task tasks
      end
  end.

(** Line 157. *)
Definition lastRevision (s : Session) : string :=
  BigNumber.toString
    (BigNumber.minus (BigNumber.of_string (leaderRevision s)) 1).

(** The query of [waitForElected], lines 158-162. *)
Definition waitForElected_query (s : Session) : RangeQuery :=
  mkRangeQuery namespace (Some (lastRevision s)) "Create" Descend.

(** Lines 155-171. *)
Definition waitForElected : M unit :=
  s <- this;;
  result <- await (RangeKeys (waitForElected_query s));;
  match result with
  | [] => ret tt
  | _ => waitForDeletes namespace result
  end.

(** The transaction of [campaign], lines 70-74. *)
Definition campaign_txn (s : Session) (value : string) : Txn :=
  mkTxn namespace
        (mkCompare (leaseId s) "Create" "==" (CmpNumber 0))
        [OpPut (leaseId s) value (leaseId s)]
        [OpGet (leaseId s)].

(** [result.responses[0].response_range.kvs[0]], line 82; reading through
    a missing response, a response of another kind or an empty [kvs]
    raises a [TypeError] at the latest on [kv.create_revision]. *)
Definition existing_kv (result : TxnResponse) : M KeyValue :=
  match responses result with
  | response_range (kv :: _) :: _ => ret kv
  | _ => throw TypeError
  end.

(** The two [catch] blocks of [campaign], lines 87-90 and 95-98. *)
Definition resign_and_rethrow (error : Error) : M unit :=
  resign;; throw error.

(** The body of the first [try], lines 82-86. *)
Definition campaign_else_branch (value : string) (result : TxnResponse)
  : M unit :=
  kv <- existing_kv result;;
  assign (set_leaderRevision (create_revision kv));;
  if negb (String.eqb (kv_value kv) value) then proclaim value else ret tt.

(** Lines 76-98: what [campaign] does once its transaction has resolved. *)
Definition campaign_after_commit (value : string) (result : TxnResponse)
  : M unit :=
  assign (fun s =>
    set_isCampaigning true
      (set_leaderRevision (header_revision result)
        (set_leaderKey (getPrefix ++ leaseId s)%string s)));;
  (if negb (succeeded result)
   then try_catch (campaign_else_branch value result) resign_and_rethrow
   else ret tt);;
  try_catch waitForElected resign_and_rethrow.

(** Lines 67-99. *)
Definition campaign (value : string) : M unit :=
  initialize;;
  s <- this;;
  result <- await (TxnCommit (campaign_txn s value));;
  campaign_after_commit value result.

(** [this.emit('error', error)], lines 217 and 232: with no ['error']
    listener registered the emitter throws the error it was given. *)
Definition emit_error (error : Error) : M unit :=
  emitted <- perform (EmitError error);;
  match emitted with
  | Resolved _ => ret tt
  | Rejected _ => throw error
  end.

(** Lines 178-207: the [try]/[finally] of [observe]. *)
Definition observe_body : M unit :=
  try_finally
    (assign (set_isObserving true);;
     result <- await (RangeKeys leader_query);;
     leader <-
       match result with
       | [] =>
           watcher <- await (WatchCreate (parent el) (WatchPrefix getPrefix));;
           try_finally (await (AwaitPutOrError watcher))
                       (await (WatchCancel watcher))
       | first :: _ => ret (getPrefix ++ first)%string
       end;;
     perform (EmitLeader leader);;
     waitForDelete (parent el) leader)
    (assign (set_isObserving false)).

(** Lines 173-213; [restart] is the [this.tryObserve()] of line 211. *)
Definition observe (restart : M unit) : M unit :=
  s <- this;;
  if _isObserving s then ret tt
  else
    observe_body;;
    n <- perform ListenerCountLeader;;
    if Nat.ltb 0 n then restart else ret tt.

(** Lines 215-220.  The recursion of the source has no bound; [fuel] is
    the number of times [observe] may still be entered.  When the
    emitter throws in the [catch] callback, line 218 is not reached: the
    rejection of the promise nobody holds is dropped and the loop ends. *)
Fixpoint tryObserve (fuel : nat) : M unit :=
  match fuel with
  | O => ret tt
  | S n =>
      detached
        (try_catch (observe (tryObserve n))
                   (fun error => emit_error error;; tryObserve n))
  end.

(** Lines 222-224. *)
Definition shouldObserve (event : string) : bool :=
  String.eqb event "leader".

(** Lines 227-231: what the handler does before it re-initializes. *)
Definition discard_lease : M unit :=
  s <- this;;
  match lease s with
  | Some l =>
      perform (LeaseRemoveAllListeners l);;
      assign (set_lease None);;
      assign (set_leaseId "")
  | None => ret tt
  end.

(** Lines 226-233. *)
Definition onLeaseLost : M unit :=
  discard_lease;;
  detached (try_catch initialize (fun error => emit_error error)).

(** Lines 235-239. *)
Definition onNewListener (fuel : nat) (event : string) : M unit :=
  if shouldObserve event then tryObserve fuel else ret tt.

End ElectionClass.

(** ** The sequential wait, as the specification words it *)

(** For each key in order: a point read; a key that is gone is skipped,
    a key that still exists is waited for; the next key is taken up once
    the previous wait has resolved. *)
Fixpoint waitForDeletes_in_order (ns : Namespace) (keys : list string)
  : M unit :=
  match keys with
  | [] => ret tt
  | key :: rest =>
      (existing <- await (GetString ns key);;
       match existing with
       | None => ret tt
       | Some _ => waitForDelete ns key
       end);;
      waitForDeletes_in_order ns rest
  end.

(** The empty list resolves at once, a single key is delegated, a longer
    list is processed in order. *)
Definition waitForDeletes_spec (ns : Namespace) (keys : list string)
  : M unit :=
  match keys with
  | [] => ret tt
  | [key] => waitForDelete ns key
  | _ => waitForDeletes_in_order ns keys
  end.

(** The point reads a run has made, in the order it made them. *)
Definition point_reads (t : list Event) : list (Namespace * string) :=
  flat_map (fun ev =>
    match snd ev with
    | GetString ns key => [(ns, key)]
    | _ => []
    end) t.

(** ** Range reads of the store *)

(** Modelled from the spec: the store and its client are not part of the
    sources.  A range read over a namespace lists the live keys under the
    namespace's prefix, keeps those whose creation revision is at most
    [maxCreateRevision] when that bound is given, sorts them by creation
    revision in the requested order and returns the keys relative to the
    namespace. *)
Record StoredKey : Type := mkStoredKey {
  sk_key : string;
  sk_create : Z
}.

(** Modelled from the spec: the key prefix of a namespace is the
    concatenation of the prefixes along its chain. *)
Fixpoint namespace_prefix (ns : Namespace) : string :=
  match ns with
  | RootNamespace => ""
  | SubNamespace p pre => (namespace_prefix p ++ pre)%string
  end.

(** Modelled from the spec: a key under the prefix [p], relative to [p]. *)
Definition relative_key (p k : string) : string :=
  substring (String.length p) (String.length k - String.length p) k.

(** Modelled from the spec: [a] may come before [b] in a read sorted by
    creation revision in order [o]. *)
Definition ordered (o : SortOrder) (a b : StoredKey) : bool :=
  match o with
  | Ascend => (sk_create a <=? sk_create b)%Z
  | Descend => (sk_create b <=? sk_create a)%Z
  end.

(** Modelled from the spec: sorting by creation revision (an insertion
    sort; the store does not say how it sorts). *)
Fixpoint insert_sorted (o : SortOrder) (k : StoredKey) (l : list StoredKey)
  : list StoredKey :=
  match l with
  | [] => [k]
  | x :: rest =>
      if ordered o k x then k :: l else x :: insert_sorted o k rest
  end.

(** Modelled from the spec: the keys [l] sorted by creation revision. *)
Definition sort_by_create (o : SortOrder) (l : list StoredKey)
  : list StoredKey :=
  fold_right (insert_sorted o) [] l.

(** Modelled from the spec: the key lies under the namespace. *)
Definition under (ns : Namespace) (k : StoredKey) : bool :=
  String.prefix (namespace_prefix ns) (sk_key k).

(** Modelled from the spec: the stored keys a range read selects, in the
    order it returns them; a bound that is not a number has no answer. *)
Definition range_select (store : list StoredKey) (q : RangeQuery)
  : option (list StoredKey) :=
  let live := filter (under (rq_namespace q)) store in
  match rq_maxCreateRevision q with
  | None => Some (sort_by_create (rq_sort_order q) live)
  | Some bound =>
      match BigNumber.of_string bound with
      | Some b =>
          Some (sort_by_create (rq_sort_order q)
                  (filter (fun k => (sk_create k <=? b)%Z) live))
      | None => None
      end
  end.

(** Modelled from the spec: what [.keys()] resolves with. *)
Definition range_keys (store : list StoredKey) (q : RangeQuery)
  : option (list string) :=
  option_map
    (map (fun k => relative_key (namespace_prefix (rq_namespace q)) (sk_key k)))
    (range_select store q).

(** ** A scripted store, for concrete runs *)

(** The answers of the store are read off a script, one entry per awaited
    call; client handles are numbered as they are created.  An ['error']
    listener is registered unless the script says [EmitThrows] when the
    error is emitted. *)
Inductive Canned : Type :=
| Fails (why : string)
| Settles
| GivesString (s : string)
| GivesTxn (r : TxnResponse)
| GivesKeys (keys : list string)
| GivesValue (v : option string)
| GivesCount (n : nat)
| EmitThrows.

Definition Script : Type := (nat * list Canned)%type.

Definition next_answer {X : Type} (pick : Canned -> option X) (w : Script)
  : Reply X * Script :=
  match snd w with
  | [] => (Rejected "unscripted", w)
  | Fails why :: rest => (Rejected why, (fst w, rest))
  | c :: rest =>
      match pick c with
      | Some x => (Resolved x, (fst w, rest))
      | None => (Rejected "unscripted", (fst w, rest))
      end
  end.

Definition scripted : Handler Script :=
  fun r =>
    match r as r0 return Script -> Answer r0 * Script with
    | NewLease _ _ => fun w => (LeaseObj (fst w), (S (fst w), snd w))
    | LeaseOnLost _ => fun w => (tt, w)
    | LeaseRemoveAllListeners _ => fun w => (tt, w)
    | LeaseGrant _ =>
        next_answer (fun c => match c with GivesString s => Some s | _ => None end)
    | LeaseRevoke _ =>
        next_answer (fun c => match c with Settles => Some tt | _ => None end)
    | TxnCommit _ =>
        next_answer (fun c => match c with GivesTxn t => Some t | _ => None end)
    | RangeKeys _ =>
        next_answer (fun c => match c with GivesKeys k => Some k | _ => None end)
    | GetString _ _ =>
        next_answer (fun c => match c with GivesValue v => Some v | _ => None end)
    | WatchCreate _ _ => fun w =>
        let aw := next_answer
                    (fun c => match c with Settles => Some tt | _ => None end) w in
        match fst aw with
        | Resolved _ =>
            (Resolved (WatcherObj (fst w)), (S (fst w), snd (snd aw)))
        | Rejected why => (Rejected why, snd aw)
        end
    | AwaitDeleteOrError _ =>
        next_answer (fun c => match c with Settles => Some tt | _ => None end)
    | AwaitPutOrError _ =>
        next_answer (fun c => match c with GivesString s => Some s | _ => None end)
    | WatchCancel _ =>
        next_answer (fun c => match c with Settles => Some tt | _ => None end)
    | EmitLeader _ => fun w => (tt, w)
    | EmitError _ => fun w =>
        match snd w with
        | EmitThrows :: rest => (Rejected "unhandled error", (fst w, rest))
        | _ => (Resolved tt, w)
        end
    | ListenerCountLeader => fun w =>
        match snd w with
        | GivesCount n :: rest => (n, (fst w, rest))
        | _ => (0, w)
        end
    end.

(** An election named ["svc"] under the root namespace, ttl 60. *)
Definition svc : Election := mkElection RootNamespace "svc" 60.

(** The session after a campaign that was elected at once under lease
    ["7"], at revision 5. *)
Definition elected_session : Session :=
  mkSession (Some (LeaseObj 0)) "7" "election/svc/7" "5" true false.

(** A transaction response of the given revision and outcome. *)
Definition txn_response (rev : string) (ok : bool) : TxnResponse :=
  mkTxnResponse rev ok [].

(** ** Vocabulary of the statements *)

(** A run that follows the events [t]. *)
Definition prepend {W A : Type} (t : list Event) (r : Run W A) : Run W A :=
  mkRun (final r) (result r) (world r) (t ++ trace r).

(** [triple P m T Q]: from a session that satisfies [P], against every
    store, every call of [m] is made at an event that satisfies [T], and
    [m] ends (returning or raising) in a session that satisfies [Q]. *)
Definition triple {A : Type} (P : Session -> Prop) (m : M A)
    (T : Event -> Prop) (Q : Result A -> Session -> Prop) : Prop :=
  forall (W : Type) (h : Handler W) (w : W) (s : Session),
    P s ->
    Forall T (trace (exec h m s w)) /\
    Q (result (exec h m s w)) (final (exec h m s w)).

(** The cleanup of [resign] goes through: its conditional delete resolves
    and either succeeds, or fails while a lease is held whose revocation
    resolves. *)
Definition resign_goes_through {W : Type} (h : Handler W) (el : Election)
    (s : Session) (w : W) : bool :=
  let commit := h (TxnCommit (resign_txn el s)) w in
  match fst commit with
  | Resolved r =>
      succeeded r ||
      match lease s with
      | Some l =>
          match fst (h (LeaseRevoke l) (snd commit)) with
          | Resolved _ => true
          | Rejected _ => false
          end
      | None => false
      end
  | Rejected _ => false
  end.

(** The two bodies of [campaign] that a [catch] block protects. *)
Definition protected_phases (el : Election) (value : string)
    (res : TxnResponse) : list (M unit) :=
  [campaign_else_branch el value res; waitForElected el].

(** The run [out] has raised [e] through a [catch] block of [campaign]:
    one of the protected phases raised [e0], with the session campaigning
    where it stopped; [resign] ran from there, starting with its
    conditional delete, and [out] ends where [resign] ended; the error of
    [out] is [e0] when [resign] returned and the error of [resign] when it
    raised; and when the cleanup of [resign] went through, [e] is [e0] and
    the candidacy is cleared. *)
Definition resigned_after_failure {W : Type} (h : Handler W) (el : Election)
    (value : string) (res : TxnResponse) (e : Error) (out : Run W unit)
  : Prop :=
  exists phase s0 w0 t0 e0,
    In phase (protected_phases el value res) /\
    result (exec h phase s0 w0) = Raise e0 /\
    isCampaigning (final (exec h phase s0 w0)) = true /\
    let failed := exec h phase s0 w0 in
    let cleanup := exec h (resign el) (final failed) (world failed) in
    (exists rest,
       trace cleanup
         = (final failed, TxnCommit (resign_txn el (final failed))) :: rest) /\
    trace out = t0 ++ trace failed ++ trace cleanup /\
    final out = final cleanup /\
    world out = world cleanup /\
    result out = match result cleanup with
                 | Ok _ => Raise e0
                 | Raise e' => Raise e'
                 end /\
    (resign_goes_through h el (final failed) (world failed) = true ->
       e = e0 /\
       isCampaigning (final out) = false /\
       leaderKey (final out) = "" /\
       leaderRevision (final out) = "").

(** The calls [observe] and [tryObserve] make outside the loop body: the
    listener count that decides a restart, and the error notification. *)
Definition outside_body (r : Request) : bool :=
  match r with
  | ListenerCountLeader => true
  | EmitError _ => true
  | _ => false
  end.

(** A call made inside the loop body of [observe], with the flag up. *)
Definition inside_body (ev : Event) : Prop :=
  isObserving (fst ev) = true /\ outside_body (snd ev) = false.

(** The flag is up at the calls of the loop body and down at the calls
    made outside it. *)
Definition flag_follows_body (ev : Event) : Prop :=
  isObserving (fst ev) = negb (outside_body (snd ev)).

(** No constraint on the calls. *)
Definition anywhere (ev : Event) : Prop := True.

(** A lease object is held but no lease id is recorded. *)
Definition lease_without_id (s : Session) : Prop :=
  lease s <> None /\ leaseId s = "".

(** Two sessions differ at most in the lease and the lease id. *)
Definition only_lease_differs (s s' : Session) : Prop :=
  set_leaseId (leaseId s) (set_lease (lease s) s') = s.

(** Two sessions agree on the candidacy. *)
Definition same_candidacy (s s' : Session) : Prop :=
  leaderKey s' = leaderKey s /\
  leaderRevision s' = leaderRevision s /\
  isCampaigning s' = isCampaigning s.

(** ** Watches held open *)

Definition watcher_eqb (a b : Watcher) : bool :=
  match a, b with
  | WatcherObj x, WatcherObj y => Nat.eqb x y
  end.

(** One occurrence of [x] less. *)
Fixpoint remove_watch (x : Watcher) (l : list Watcher) : list Watcher :=
  match l with
  | [] => []
  | y :: rest => if watcher_eqb x y then rest else y :: remove_watch x rest
  end.

(** What a call does to the watches held open: a watch the store has
    created is held from then on, a watch whose cancellation has been
    requested is held no longer. *)
Definition ledger_step (r : Request)
  : Answer r -> list Watcher -> list Watcher :=
  match r as r0 return Answer r0 -> list Watcher -> list Watcher with
  | WatchCreate _ _ => fun a opened =>
      match a with
      | Resolved x => x :: opened
      | Rejected _ => opened
      end
  | WatchCancel x => fun _ opened => remove_watch x opened
  | _ => fun _ opened => opened
  end.

(** The calls [t], made in turn against the store [h] from the world [w]:
    the world they lead to and the watches held open at the end, [opened]
    being held at the start. *)
Fixpoint open_watches {W : Type} (h : Handler W) (w : W)
    (opened : list Watcher) (t : list Event) : W * list Watcher :=
  match t with
  | [] => (w, opened)
  | ev :: rest =>
      open_watches h (snd (h (snd ev) w))
                   (ledger_step (snd ev) (fst (h (snd ev) w)) opened) rest
  end.

(** A call that neither creates nor cancels a watch. *)
Definition watch_free (r : Request) : bool :=
  match r with
  | WatchCreate _ _ => false
  | WatchCancel _ => false
  | _ => true
  end.

(** [m] holds no watch open when it ends, however it ends: against every
    store, the watches held at its end are those held at its start. *)
Definition released {A : Type} (m : M A) : Prop :=
  forall (W : Type) (h : Handler W) (w : W) (s : Session)
         (opened : list Watcher),
    snd (open_watches h w opened (trace (exec h m s w))) = opened.

(** * Properties *)

(** ** Runs of the combinators *)

Arguments exec : simpl never.

Section RunLemmas.

Context {W : Type} (h : Handler W).

Lemma run_bindP (A B : Type) (p : Prog A) (f : A -> Prog B) (w : W) :
  run h (bindP p f) w =
  (fst (fst (run h (f (fst (fst (run h p w)))) (snd (fst (run h p w))))),
   snd (fst (run h (f (fst (fst (run h p w)))) (snd (fst (run h p w))))),
   snd (run h p w) ++
   snd (run h (f (fst (fst (run h p w)))) (snd (fst (run h p w))))).
Proof.
  revert w. induction p as [a | s r k IH]; intro w; simpl.
  - destruct (run h (f a) w) as [[b w'] t]. reflexivity.
  - rewrite IH. reflexivity.
Qed.

Lemma prepend_nil (A : Type) (r : Run W A) : prepend [] r = r.
Proof. destruct r; reflexivity. Qed.

Lemma exec_ret (A : Type) (a : A) s w :
  exec h (ret a) s w = mkRun s (Ok a) w [].
Proof. reflexivity. Qed.

Lemma exec_throw (A : Type) (e : Error) s w :
  exec h (@throw A e) s w = mkRun s (Raise e) w [].
Proof. reflexivity. Qed.

Lemma exec_this s w : exec h this s w = mkRun s (Ok s) w [].
Proof. reflexivity. Qed.

Lemma exec_assign f s w : exec h (assign f) s w = mkRun (f s) (Ok tt) w [].
Proof. reflexivity. Qed.

Lemma exec_perform r s w :
  exec h (perform r) s w = mkRun s (Ok (fst (h r w))) (snd (h r w)) [(s, r)].
Proof. reflexivity. Qed.

Lemma exec_settle (X : Type) (a : Reply X) s w :
  exec h (settle a) s w =
  mkRun s (match a with
           | Resolved x => Ok x
           | Rejected why => Raise (StoreFailure why)
           end) w [].
Proof. destruct a; reflexivity. Qed.

Lemma exec_bind (A B : Type) (m : M A) (f : A -> M B) s w :
  exec h (bind m f) s w =
  match result (exec h m s w) with
  | Ok a =>
      prepend (trace (exec h m s w))
              (exec h (f a) (final (exec h m s w)) (world (exec h m s w)))
  | Raise e =>
      mkRun (final (exec h m s w)) (Raise e) (world (exec h m s w))
            (trace (exec h m s w))
  end.
Proof.
  unfold exec, bind, prepend. rewrite run_bindP.
  destruct (run h (m s) w) as [[[s1 r1] w1] t1]. simpl.
  destruct r1; simpl; [reflexivity | now rewrite app_nil_r].
Qed.

Lemma exec_bind_raise (m : M unit) (f : unit -> M unit) s w e :
  result (exec h m s w) = Raise e -> exec h (bind m f) s w = exec h m s w.
Proof.
  intro Hm. rewrite exec_bind, Hm.
  destruct (exec h m s w) as [s1 r1 w1 t1]. cbn in Hm |- *. now subst.
Qed.

Lemma exec_try_catch (A : Type) (m : M A) (c : Error -> M A) s w :
  exec h (try_catch m c) s w =
  match result (exec h m s w) with
  | Ok a => exec h m s w
  | Raise e =>
      prepend (trace (exec h m s w))
              (exec h (c e) (final (exec h m s w)) (world (exec h m s w)))
  end.
Proof.
  unfold exec, try_catch, prepend. rewrite run_bindP.
  destruct (run h (m s) w) as [[[s1 r1] w1] t1]. simpl.
  destruct r1; simpl; [now rewrite app_nil_r | reflexivity].
Qed.

Lemma exec_try_finally (A : Type) (m : M A) (f : M unit) s w :
  exec h (try_finally m f) s w =
  let body := exec h m s w in
  let fin := exec h f (final body) (world body) in
  mkRun (final fin)
        (match result fin with
         | Ok _ => result body
         | Raise e => Raise e
         end)
        (world fin) (trace body ++ trace fin).
Proof.
  unfold exec, try_finally. rewrite run_bindP.
  destruct (run h (m s) w) as [[[s1 r1] w1] t1]. simpl.
  rewrite run_bindP.
  destruct (run h (f s1) w1) as [[[s2 r2] w2] t2]. simpl.
  destruct r2; simpl; now rewrite app_nil_r.
Qed.

Lemma exec_detached (m : M unit) s w :
  exec h (detached m) s w =
  mkRun (final (exec h m s w)) (Ok tt) (world (exec h m s w))
        (trace (exec h m s w)).
Proof.
  unfold exec, detached. rewrite run_bindP.
  destruct (run h (m s) w) as [[[s1 r1] w1] t1]. simpl.
  now rewrite app_nil_r.
Qed.

Lemma exec_this_bind (A : Type) (k : Session -> M A) s w :
  exec h (bind this k) s w = exec h (k s) s w.
Proof. rewrite exec_bind, exec_this. apply prepend_nil. Qed.

Lemma exec_call_bind r (X B : Type) (cast : Answer r -> Reply X)
    (k : X -> M B) s w :
  exec h (bind (bind (perform r) (fun a => settle (cast a))) k) s w =
  match cast (fst (h r w)) with
  | Resolved x => prepend [(s, r)] (exec h (k x) s (snd (h r w)))
  | Rejected why => mkRun s (Raise (StoreFailure why)) (snd (h r w)) [(s, r)]
  end.
Proof.
  rewrite !exec_bind, exec_perform.
  cbn [result final world trace prepend].
  rewrite exec_settle. destruct (cast (fst (h r w))); reflexivity.
Qed.

End RunLemmas.

(** Projections of a run, without unfolding the run itself. *)
Tactic Notation "run_simpl" :=
  try unfold prepend; cbn [trace final result world fst snd app].
Tactic Notation "run_simpl" "in" hyp(H) :=
  try unfold prepend in H; cbn [trace final result world fst snd app] in H.

(** ** Rules for [triple] *)

Section TripleRules.

Context {A : Type}.
Variable T : Event -> Prop.

Lemma triple_ret (P : Session -> Prop) (a : A) Q :
  (forall s, P s -> Q (Ok a) s) -> triple P (ret a) T Q.
Proof. intros HQ W h w s HP. rewrite exec_ret. simpl. auto. Qed.

Lemma triple_throw (P : Session -> Prop) (e : Error) (Q : Result A -> _) :
  (forall s, P s -> Q (Raise e) s) -> triple P (throw e) T Q.
Proof. intros HQ W h w s HP. rewrite exec_throw. simpl. auto. Qed.

Lemma triple_settle (P : Session -> Prop) (a : Reply A) Q :
  (forall s, P s ->
     match a with
     | Resolved x => Q (Ok x) s
     | Rejected why => Q (Raise (StoreFailure why)) s
     end) ->
  triple P (settle a) T Q.
Proof.
  intros HQ W h w s HP. rewrite exec_settle. run_simpl.
  specialize (HQ s HP). destruct a; auto.
Qed.

Lemma triple_weaken (P P' : Session -> Prop) (m : M A) Q Q' :
  triple P m T Q ->
  (forall s, P' s -> P s) ->
  (forall r s, Q r s -> Q' r s) ->
  triple P' m T Q'.
Proof.
  intros Hm HP HQ W h w s HP'.
  destruct (Hm W h w s (HP s HP')). auto.
Qed.

Lemma triple_bind (B : Type) (P : Session -> Prop) (m : M B) (f : B -> M A)
    (Q1 : Result B -> Session -> Prop) Q :
  triple P m T Q1 ->
  (forall b, triple (Q1 (Ok b)) (f b) T Q) ->
  (forall e s, Q1 (Raise e) s -> Q (Raise e) s) ->
  triple P (bind m f) T Q.
Proof.
  intros Hm Hf He W h w s HP. rewrite exec_bind.
  destruct (Hm W h w s HP) as [Ht Hq].
  destruct (result (exec h m s w)) as [b | e]; run_simpl.
  - destruct (Hf b W h (world (exec h m s w)) (final (exec h m s w)) Hq).
    split; [apply Forall_app; split |]; assumption.
  - split; [assumption | apply He, Hq].
Qed.

Lemma triple_this (P : Session -> Prop) (k : Session -> M A) Q :
  (forall s0, P s0 -> triple (fun s => s = s0) (k s0) T Q) ->
  triple P (bind this k) T Q.
Proof.
  intros Hk W h w s HP. rewrite exec_bind, exec_this. run_simpl.
  destruct (Hk s HP W h w s eq_refl). run_simpl. auto.
Qed.

Lemma triple_try_catch (P : Session -> Prop) (m : M A) (c : Error -> M A)
    (Q1 : Result A -> Session -> Prop) Q :
  triple P m T Q1 ->
  (forall a s, Q1 (Ok a) s -> Q (Ok a) s) ->
  (forall e, triple (Q1 (Raise e)) (c e) T Q) ->
  triple P (try_catch m c) T Q.
Proof.
  intros Hm Hok Hc W h w s HP. rewrite exec_try_catch.
  destruct (Hm W h w s HP) as [Ht Hq].
  destruct (result (exec h m s w)) as [a | e] eqn:E; run_simpl.
  - rewrite E. split; [assumption | apply Hok, Hq].
  - destruct (Hc e W h (world (exec h m s w)) (final (exec h m s w)) Hq).
    split; [apply Forall_app; split |]; assumption.
Qed.

Lemma triple_try_finally (P : Session -> Prop) (m : M A) (f : M unit)
    (Q1 : Result A -> Session -> Prop) Q :
  triple P m T Q1 ->
  (forall r, triple (Q1 r) f T
     (fun rf s => match rf with
                  | Ok _ => Q r s
                  | Raise e => Q (Raise e) s
                  end)) ->
  triple P (try_finally m f) T Q.
Proof.
  intros Hm Hf W h w s HP. rewrite exec_try_finally. run_simpl.
  destruct (Hm W h w s HP) as [Ht Hq].
  destruct (Hf _ W h (world (exec h m s w)) (final (exec h m s w)) Hq)
    as [Ht' Hq'].
  split; [apply Forall_app; split; assumption |].
  destruct (result (exec h f _ _)); assumption.
Qed.

End TripleRules.

Lemma triple_assign (T : Event -> Prop) (P : Session -> Prop) f
    (Q : Result unit -> Session -> Prop) :
  (forall s, P s -> Q (Ok tt) (f s)) -> triple P (assign f) T Q.
Proof. intros HQ W h w s HP. rewrite exec_assign. simpl. auto. Qed.

Lemma triple_perform (T : Event -> Prop) (P : Session -> Prop) r
    (Q : Result (Answer r) -> Session -> Prop) :
  (forall s, P s -> T (s, r)) ->
  (forall s a, P s -> Q (Ok a) s) ->
  triple P (perform r) T Q.
Proof.
  intros HT HQ W h w s HP. rewrite exec_perform. run_simpl.
  split; [constructor; auto | auto].
Qed.

Lemma triple_detached (T : Event -> Prop) (P : Session -> Prop) (m : M unit)
    (Q1 Q : Result unit -> Session -> Prop) :
  triple P m T Q1 ->
  (forall r s, Q1 r s -> Q (Ok tt) s) ->
  triple P (detached m) T Q.
Proof.
  intros Hm HQ W h w s HP. rewrite exec_detached. run_simpl.
  destruct (Hm W h w s HP) as [Ht Hq]. eauto.
Qed.

(** An awaited call: the call is made where [P] holds, and [P] holds
    again when it settles, whichever way. *)
Lemma triple_await (T : Event -> Prop) (P : Session -> Prop) r (X : Type)
    (cast : Answer r -> Reply X) :
  (forall s, P s -> T (s, r)) ->
  triple P (bind (perform r) (fun a => settle (cast a))) T (fun _ s => P s).
Proof.
  intros HT.
  apply triple_bind with (Q1 := fun _ s => P s).
  - apply triple_perform; auto.
  - intro a. apply triple_settle. intros s HP. destruct (cast a); assumption.
  - auto.
Qed.

(** ** Runs of [proclaim], [resign] and [waitForDelete], case by case *)

Ltac run_method :=
  unfold exec, bind, this, perform, assign, settle, ret, throw,
         try_finally, try_catch; cbn.

Lemma exec_initialize W (h : Handler W) el s w :
  exec h (initialize el) s w =
  match lease s with
  | Some _ => mkRun s (Ok tt) w []
  | None =>
      let fresh := h (NewLease (namespace el) (ttl el)) w in
      let s1 := set_lease (Some (fst fresh)) s in
      let listen := h (LeaseOnLost (fst fresh)) (snd fresh) in
      let grant := h (LeaseGrant (fst fresh)) (snd listen) in
      let calls := [(s, NewLease (namespace el) (ttl el));
                    (s1, LeaseOnLost (fst fresh));
                    (s1, LeaseGrant (fst fresh))] in
      match fst grant with
      | Resolved id => mkRun (set_leaseId id s1) (Ok tt) (snd grant) calls
      | Rejected why => mkRun s1 (Raise (StoreFailure why)) (snd grant) calls
      end
  end.
Proof.
  unfold initialize. run_method.
  destruct (lease s) as [l |]; cbn; [reflexivity |].
  destruct (h (NewLease (namespace el) (ttl el)) w) as [l w1]; cbn.
  destruct (h (LeaseOnLost l) w1) as [u w2]; cbn.
  destruct (h (LeaseGrant l) w2) as [[id | why] w3]; reflexivity.
Qed.

Lemma exec_emit_error W (h : Handler W) e s w :
  exec h (emit_error e) s w
    = mkRun s
        (match fst (h (EmitError e) w) with
         | Resolved _ => Ok tt
         | Rejected _ => Raise e
         end)
        (snd (h (EmitError e) w)) [(s, EmitError e)].
Proof.
  unfold emit_error. run_method.
  destruct (h (EmitError e) w) as [[u | why] w1]; reflexivity.
Qed.

Lemma triple_emit_error (T : Event -> Prop) (P : Session -> Prop) e
    (Q : Result unit -> Session -> Prop) :
  (forall s, P s -> T (s, EmitError e)) ->
  (forall r s, P s -> Q r s) ->
  triple P (emit_error e) T Q.
Proof.
  intros HT HQ W h w s HP. rewrite exec_emit_error. cbn [trace result final].
  split; [constructor; auto | auto].
Qed.

Lemma exec_proclaim W (h : Handler W) el value s w :
  exec h (proclaim el value) s w =
  if isCampaigning s then
    let commit := h (TxnCommit (proclaim_txn el s value)) w in
    let ev := (s, TxnCommit (proclaim_txn el s value)) in
    match fst commit with
    | Resolved r =>
        if succeeded r then mkRun s (Ok tt) (snd commit) [ev]
        else mkRun (set_leaderKey "" s) (Raise EtcdNotLeaderError)
                   (snd commit) [ev]
    | Rejected why => mkRun s (Raise (StoreFailure why)) (snd commit) [ev]
    end
  else mkRun s (Raise EtcdNotLeaderError) w [].
Proof.
  unfold proclaim, isCampaigning. run_method.
  destruct (_isCampaigning s); cbn; [| reflexivity].
  destruct (h (TxnCommit (proclaim_txn el s value)) w) as [[r | why] w1]; cbn;
    [destruct (succeeded r) |]; reflexivity.
Qed.

Lemma exec_resign W (h : Handler W) el s w :
  exec h (resign el) s w =
  if isCampaigning s then
    let commit := h (TxnCommit (resign_txn el s)) w in
    let ev := (s, TxnCommit (resign_txn el s)) in
    match fst commit with
    | Resolved r =>
        if succeeded r then mkRun (clear_candidacy s) (Ok tt) (snd commit) [ev]
        else
          match lease s with
          | None => mkRun s (Ok tt) (snd commit) [ev]
          | Some l =>
              let revoke := h (LeaseRevoke l) (snd commit) in
              match fst revoke with
              | Resolved _ =>
                  let fresh := h (NewLease (namespace el) (ttl el)) (snd revoke) in
                  let s1 := set_lease (Some (fst fresh)) s in
                  mkRun (clear_candidacy (set_leaseId "" s1)) (Ok tt)
                        (snd (h (LeaseOnLost (fst fresh)) (snd fresh)))
                        [ev; (s, LeaseRevoke l);
                         (s, NewLease (namespace el) (ttl el));
                         (s1, LeaseOnLost (fst fresh))]
              | Rejected why =>
                  mkRun s (Raise (StoreFailure why)) (snd revoke)
                        [ev; (s, LeaseRevoke l)]
              end
          end
    | Rejected why => mkRun s (Raise (StoreFailure why)) (snd commit) [ev]
    end
  else mkRun s (Ok tt) w [].
Proof.
  unfold resign, isCampaigning. run_method.
  destruct (_isCampaigning s); cbn; [| reflexivity].
  destruct (h (TxnCommit (resign_txn el s)) w) as [[r | why] w1]; cbn;
    [| reflexivity].
  destruct (succeeded r); cbn; [reflexivity |].
  destruct (lease s) as [l |]; cbn; [| reflexivity].
  destruct (h (LeaseRevoke l) w1) as [[u | why] w2]; cbn; reflexivity.
Qed.

Lemma exec_waitForDelete W (h : Handler W) ns key s w :
  exec h (waitForDelete ns key) s w =
  let create := h (WatchCreate ns (WatchKey key)) w in
  match fst create with
  | Resolved watcher =>
      let wait := h (AwaitDeleteOrError watcher) (snd create) in
      let cancel := h (WatchCancel watcher) (snd wait) in
      mkRun s
        (match fst cancel with
         | Resolved _ =>
             match fst wait with
             | Resolved _ => Ok tt
             | Rejected why => Raise (StoreFailure why)
             end
         | Rejected why => Raise (StoreFailure why)
         end)
        (snd cancel)
        [(s, WatchCreate ns (WatchKey key));
         (s, AwaitDeleteOrError watcher);
         (s, WatchCancel watcher)]
  | Rejected why =>
      mkRun s (Raise (StoreFailure why)) (snd create)
            [(s, WatchCreate ns (WatchKey key))]
  end.
Proof.
  unfold waitForDelete. run_method.
  destruct (h (WatchCreate ns (WatchKey key)) w) as [[watcher | why] w1]; cbn;
    [| reflexivity].
  destruct (h (AwaitDeleteOrError watcher) w1) as [[u | why] w2]; cbn;
    destruct (h (WatchCancel watcher) w2) as [[u' | why'] w3]; cbn;
    try destruct u; reflexivity.
Qed.

(** When its cleanup goes through, [resign] returns with the candidacy
    cleared. *)
Lemma resign_outcome W (h : Handler W) el s w :
  isCampaigning s = true ->
  resign_goes_through h el s w = true ->
  result (exec h (resign el) s w) = Ok tt /\
  leaderKey (final (exec h (resign el) s w)) = "" /\
  leaderRevision (final (exec h (resign el) s w)) = "" /\
  isCampaigning (final (exec h (resign el) s w)) = false.
Proof.
  intros Hc. rewrite exec_resign, Hc. unfold resign_goes_through.
  cbv zeta.
  destruct (fst (h (TxnCommit (resign_txn el s)) w)) as [r | why];
    [| discriminate].
  destruct (succeeded r); cbn [orb]; [intros _; cbn; auto |].
  destruct (lease s) as [l |]; [| discriminate].
  destruct (fst (h (LeaseRevoke l) _)); [intros _; cbn; auto | discriminate].
Qed.

(** ** Keys and range reads *)

Lemma append_assoc (a b c : string) :
  ((a ++ b) ++ c)%string = (a ++ (b ++ c))%string.
Proof. induction a as [| x a IH]; simpl; [reflexivity | now rewrite IH]. Qed.

Lemma substring_all (s : string) : substring 0 (String.length s) s = s.
Proof. induction s as [| c s IH]; simpl; [reflexivity | now rewrite IH]. Qed.

(** A key under a prefix is the prefix followed by its relative key. *)
Lemma prefix_relative_key (p k : string) :
  String.prefix p k = true -> (p ++ relative_key p k)%string = k.
Proof.
  unfold relative_key. revert k.
  induction p as [| a p IH]; intros k Hp; simpl.
  - rewrite Nat.sub_0_r. apply substring_all.
  - destruct k as [| b k]; simpl in Hp; [discriminate |].
    destruct (ascii_dec a b) as [-> | _]; [| discriminate].
    simpl. f_equal. apply IH, Hp.
Qed.

Lemma ordered_total o a b : ordered o a b = false -> ordered o b a = true.
Proof. destruct o; simpl; intro H; apply Z.leb_le; apply Z.leb_gt in H; lia. Qed.

Lemma ordered_trans o a b c :
  ordered o a b = true -> ordered o b c = true -> ordered o a c = true.
Proof.
  destruct o; simpl; intros H1 H2;
    apply Z.leb_le in H1; apply Z.leb_le in H2; apply Z.leb_le; lia.
Qed.

Lemma insert_sorted_perm o k l : Permutation (insert_sorted o k l) (k :: l).
Proof.
  induction l as [| x l IH]; simpl; [reflexivity |].
  destruct (ordered o k x); [reflexivity |].
  rewrite IH. apply perm_swap.
Qed.

Lemma sort_by_create_perm o l : Permutation (sort_by_create o l) l.
Proof.
  induction l as [| x l IH]; simpl; [reflexivity |].
  rewrite insert_sorted_perm. now constructor.
Qed.

Lemma insert_sorted_sorted o k l :
  StronglySorted (fun a b => ordered o a b = true) l ->
  StronglySorted (fun a b => ordered o a b = true) (insert_sorted o k l).
Proof.
  induction 1 as [| x l Hl IH Hx]; simpl.
  - constructor; constructor.
  - destruct (ordered o k x) eqn:E.
    + constructor; [constructor; assumption |].
      constructor; [assumption |].
      eapply Forall_impl; [| exact Hx].
      intros y Hy. eapply ordered_trans; eassumption.
    + constructor; [assumption |].
      apply (Permutation_Forall (Permutation_sym (insert_sorted_perm o k l))).
      constructor; [now apply ordered_total | assumption].
Qed.

Lemma sort_by_create_sorted o l :
  StronglySorted (fun a b => ordered o a b = true) (sort_by_create o l).
Proof.
  induction l as [| x l IH]; simpl; [constructor |].
  now apply insert_sorted_sorted.
Qed.

(** The head of an ascending range read has the lowest creation revision
    of the live keys of the namespace. *)
Lemma range_select_ascend_head store ns first rest :
  range_select store (mkRangeQuery ns None "Create" Ascend)
    = Some (first :: rest) ->
  In first store /\ under ns first = true /\
  forall k, In k store -> under ns k = true ->
            (sk_create first <= sk_create k)%Z.
Proof.
  unfold range_select; simpl. intros [= Hsel].
  pose proof (sort_by_create_perm Ascend (filter (under ns) store)) as Hperm.
  pose proof (sort_by_create_sorted Ascend (filter (under ns) store)) as Hsort.
  rewrite Hsel in Hperm, Hsort.
  assert (Hin : In first (filter (under ns) store)).
  { eapply Permutation_in; [exact Hperm | now left]. }
  apply filter_In in Hin. destruct Hin as [Hin Hu].
  split; [assumption | split; [assumption |]].
  intros k Hk Hku.
  assert (Hk' : In k (first :: rest)).
  { eapply Permutation_in; [apply Permutation_sym, Hperm |].
    apply filter_In. now split. }
  destruct Hk' as [<- | Hk']; [lia |].
  inversion Hsort as [| ? ? _ Hall]; subst.
  rewrite Forall_forall in Hall. specialize (Hall k Hk').
  simpl in Hall. now apply Z.leb_le.
Qed.

(** ** [resign] *)

(** C2 (amended).  For every call to [resign()] while [isCampaigning] is
    true in which the conditional delete transaction resolves and either
    succeeds, or fails while a lease reference is held whose revocation
    resolves, [resign()] returns with [leaderKey] and [leaderRevision]
    cleared to the empty string and [isCampaigning] set to false.  In
    every other case (the transaction or the revocation rejects, or the
    transaction fails and no lease reference is held) the three fields are
    left as they were. *)
Theorem resign_clears_candidacy W (h : Handler W) el s w :
  isCampaigning s = true ->
  (resign_goes_through h el s w = true ->
     result (exec h (resign el) s w) = Ok tt /\
     leaderKey (final (exec h (resign el) s w)) = "" /\
     leaderRevision (final (exec h (resign el) s w)) = "" /\
     isCampaigning (final (exec h (resign el) s w)) = false) /\
  (resign_goes_through h el s w = false ->
     same_candidacy s (final (exec h (resign el) s w))).
Proof.
  intro Hc. rewrite exec_resign, Hc. unfold resign_goes_through.
  cbv zeta.
  destruct (fst (h (TxnCommit (resign_txn el s)) w)) as [r | why].
  - destruct (succeeded r); cbn [orb].
    + split; [intros _; cbn; auto | discriminate].
    + destruct (lease s) as [l |].
      * destruct (fst (h (LeaseRevoke l) _)).
        -- split; [intros _; cbn; auto | discriminate].
        -- split; [discriminate | intros _; cbn; repeat split].
      * split; [discriminate | intros _; cbn; repeat split].
  - split; [discriminate | intros _; cbn; repeat split].
Qed.

Lemma resign_clears_candidacy_witness :
  isCampaigning elected_session = true /\
  let out := exec scripted (resign svc) elected_session
                  (1, [GivesTxn (txn_response "9" false); Settles]) in
  result out = Ok tt /\
  leaderKey (final out) = "" /\
  leaderRevision (final out) = "" /\
  isCampaigning (final out) = false.
Proof.
  split; [reflexivity |].
  apply (resign_clears_candidacy scripted svc elected_session
           (1, [GivesTxn (txn_response "9" false); Settles]));
    reflexivity.
Defined.

(** C2 as stated fails: a [resign()] called while campaigning returns with
    nothing cleared when its transaction fails and no lease reference is
    held (the [return] of line 129), and raises with nothing cleared when
    the store rejects its transaction. *)
Lemma resign_may_keep_candidacy :
  (let start := set_lease None elected_session in
   let out := exec scripted (resign svc) start
                   (1, [GivesTxn (txn_response "9" false)]) in
   isCampaigning start = true /\
   result out = Ok tt /\
   leaderKey (final out) = "election/svc/7" /\
   leaderRevision (final out) = "5" /\
   isCampaigning (final out) = true) /\
  (let out := exec scripted (resign svc) elected_session
                   (1, [Fails "unavailable"]) in
   isCampaigning elected_session = true /\
   result out = Raise (StoreFailure "unavailable") /\
   leaderKey (final out) = "election/svc/7" /\
   leaderRevision (final out) = "5" /\
   isCampaigning (final out) = true).
Proof. repeat split. Qed.

(** ** [proclaim] *)

(** C3.  [proclaim(value)] raises [NotLeaderError] exactly when
    [isCampaigning] is false, in which case it issues no call and changes
    no state, or when its transaction resolves with the create-revision
    check against [leaderRevision] failed, in which case only [leaderKey]
    is cleared; when the transaction succeeds [proclaim] returns and the
    session is as it was.  The transaction is, in full: in the election
    namespace, if the creation revision of the key [leaseId] equals
    [leaderRevision] then put [value] on the key [leaseId] under the
    lease [leaseId], with no else branch; the key it addresses is the
    candidate key, [election/<name>/<leaseId>] under the parent
    namespace. *)
Theorem proclaim_not_leader W (h : Handler W) el value s w :
  (result (exec h (proclaim el value) s w) = Raise EtcdNotLeaderError <->
     isCampaigning s = false \/
     exists r, fst (h (TxnCommit (proclaim_txn el s value)) w) = Resolved r /\
               succeeded r = false) /\
  (isCampaigning s = false ->
     exec h (proclaim el value) s w
       = mkRun s (Raise EtcdNotLeaderError) w []) /\
  (isCampaigning s = true ->
     trace (exec h (proclaim el value) s w)
       = [(s, TxnCommit (proclaim_txn el s value))]) /\
  (forall r,
     isCampaigning s = true ->
     fst (h (TxnCommit (proclaim_txn el s value)) w) = Resolved r ->
     succeeded r = false ->
     final (exec h (proclaim el value) s w) = set_leaderKey "" s /\
     leaderKey (final (exec h (proclaim el value) s w)) = "") /\
  (forall r,
     isCampaigning s = true ->
     fst (h (TxnCommit (proclaim_txn el s value)) w) = Resolved r ->
     succeeded r = true ->
     result (exec h (proclaim el value) s w) = Ok tt /\
     final (exec h (proclaim el value) s w) = s) /\
  proclaim_txn el s value
    = mkTxn (SubNamespace (parent el) (getPrefix el))
            (mkCompare (leaseId s) "Create" "==" (CmpString (leaderRevision s)))
            [OpPut (leaseId s) value (leaseId s)]
            [] /\
  getPrefix el = ("election/" ++ name el ++ "/")%string /\
  (namespace_prefix (txn_namespace (proclaim_txn el s value)) ++ leaseId s)%string
    = (namespace_prefix (parent el)
         ++ "election/" ++ name el ++ "/" ++ leaseId s)%string.
Proof.
  rewrite exec_proclaim. cbv zeta.
  split; [| split; [| split; [| split; [| split;
    [| split; [reflexivity | split; [reflexivity |]]]]]]].
  6: { cbn [proclaim_txn txn_namespace namespace namespace_prefix].
       rewrite append_assoc. f_equal. unfold getPrefix, Election_prefix.
       cbn [append]. do 9 f_equal. apply append_assoc. }
  - destruct (isCampaigning s) eqn:Hc.
    + destruct (fst (h (TxnCommit (proclaim_txn el s value)) w)) as [r | why].
      * destruct (succeeded r) eqn:Hs; cbn [result]; split.
        -- discriminate.
        -- intros [H | [r' [[= <-] H]]]; congruence.
        -- intros _. right. exists r. auto.
        -- reflexivity.
      * cbn [result]. split; [discriminate |].
        intros [H | [r' [H _]]]; discriminate.
    + cbn [result]. split; [now left | reflexivity].
  - intros ->. reflexivity.
  - intros ->.
    destruct (fst (h (TxnCommit (proclaim_txn el s value)) w)) as [r | why];
      [destruct (succeeded r) |]; reflexivity.
  - intros r -> -> ->. split; reflexivity.
  - intros r -> -> ->. split; reflexivity.
Qed.

Lemma proclaim_not_leader_witness :
  let out := exec scripted (proclaim svc "B") elected_session
                  (1, [GivesTxn (txn_response "9" false)]) in
  result out = Raise EtcdNotLeaderError /\
  final out = set_leaderKey "" elected_session /\
  leaderKey (final out) = "".
Proof.
  pose proof (proclaim_not_leader scripted svc "B" elected_session
                (1, [GivesTxn (txn_response "9" false)])) as H.
  destruct H as [Hiff [_ [_ [Hfail _]]]].
  split.
  - apply Hiff. right. exists (txn_response "9" false). split; reflexivity.
  - apply (Hfail (txn_response "9" false)); reflexivity.
Defined.

(** ** [getLeader] *)

(** C4.  [getLeader()] makes one range read over the election prefix,
    sorted ascending by creation revision, and leaves the session as it
    was, whatever the session is.  It raises [NoLeaderError] if and only
    if the read resolves with no key; otherwise it returns the election
    prefix followed by the first key of the result, which, when the store
    answers the read as a range read is specified, is the live candidate
    of lowest creation revision. *)
Theorem getLeader_outcome W (h : Handler W) el s w :
  final (exec h (getLeader el) s w) = s /\
  trace (exec h (getLeader el) s w) = [(s, RangeKeys (leader_query el))] /\
  leader_query el = mkRangeQuery (namespace el) None "Create" Ascend /\
  (result (exec h (getLeader el) s w) = Raise EtcdNoLeaderError <->
     fst (h (RangeKeys (leader_query el)) w) = Resolved []) /\
  (forall first rest,
     fst (h (RangeKeys (leader_query el)) w) = Resolved (first :: rest) ->
     result (exec h (getLeader el) s w) = Ok (getPrefix el ++ first)%string) /\
  (forall store keys,
     range_keys store (leader_query el) = Some keys ->
     fst (h (RangeKeys (leader_query el)) w) = Resolved keys ->
     (result (exec h (getLeader el) s w) = Raise EtcdNoLeaderError /\
      forall k, In k store -> under (namespace el) k = false) \/
     (exists first key,
        result (exec h (getLeader el) s w) = Ok key /\
        (namespace_prefix (parent el) ++ key)%string = sk_key first /\
        In first store /\ under (namespace el) first = true /\
        forall k, In k store -> under (namespace el) k = true ->
                  (sk_create first <= sk_create k)%Z)).
Proof.
  assert (Hrun : exec h (getLeader el) s w =
    mkRun s
      (match fst (h (RangeKeys (leader_query el)) w) with
       | Resolved [] => Raise EtcdNoLeaderError
       | Resolved (first :: _) => Ok (getPrefix el ++ first)%string
       | Rejected why => Raise (StoreFailure why)
       end)
      (snd (h (RangeKeys (leader_query el)) w))
      [(s, RangeKeys (leader_query el))]).
  { unfold getLeader. run_method.
    destruct (h (RangeKeys (leader_query el)) w) as [[[| k ks] | why] w1];
      reflexivity. }
  rewrite Hrun. cbn [final trace result].
  split; [reflexivity |]. split; [reflexivity |]. split; [reflexivity |].
  split; [| split].
  - destruct (fst (h (RangeKeys (leader_query el)) w)) as [[| k ks] | why];
      split; intro H; try reflexivity; discriminate.
  - intros first rest ->. reflexivity.
  - intros store keys Hkeys ->.
    unfold range_keys in Hkeys.
    destruct (range_select store (leader_query el)) as [sel |] eqn:Hsel;
      [| discriminate].
    injection Hkeys as <-.
    destruct sel as [| first rest]; cbn [map].
    + left. split; [reflexivity |].
      intros k Hk. destruct (under (namespace el) k) eqn:Hu; [| reflexivity].
      exfalso.
      unfold range_select in Hsel; simpl in Hsel. injection Hsel as Hsel.
      pose proof (sort_by_create_perm Ascend
                    (filter (under (namespace el)) store)) as Hperm.
      rewrite Hsel in Hperm.
      apply Permutation_nil in Hperm.
      assert (Hin : In k (filter (under (namespace el)) store))
        by (apply filter_In; now split).
      rewrite Hperm in Hin. contradiction.
    + right.
      destruct (@range_select_ascend_head store (namespace el) first rest Hsel)
        as [Hin [Hu Hlow]].
      exists first,
        (getPrefix el ++
         relative_key (namespace_prefix (namespace el)) (sk_key first))%string.
      split; [reflexivity |].
      split; [| auto].
      rewrite <- append_assoc.
      apply (prefix_relative_key (namespace_prefix (namespace el))), Hu.
Qed.

Lemma getLeader_outcome_witness :
  let store := [mkStoredKey "election/svc/9" 8; mkStoredKey "election/svc/7" 5;
                mkStoredKey "election/other/1" 2] in
  range_keys store (leader_query svc) = Some ["7"; "9"] /\
  let out := exec scripted (getLeader svc) new_session
                  (0, [GivesKeys ["7"; "9"]]) in
  result out = Ok "election/svc/7" /\ final out = new_session.
Proof.
  split; [reflexivity |].
  pose proof (getLeader_outcome scripted svc new_session
                (0, [GivesKeys ["7"; "9"]])) as [Hfinal [_ [_ [_ [Hfirst _]]]]].
  split; [| exact Hfinal].
  apply (Hfirst "7" ["9"]). reflexivity.
Defined.

(** ** [waitForDelete] *)

(** C7.  A call to [waitForDelete(key)] whose single-key watch was opened
    makes exactly three calls: it opens the watch, awaits the delete
    notification or the watch error, and cancels the watch; the
    cancellation is its last call on both exits.  When the cancellation
    resolves, the call returns if a delete notification arrived and
    re-raises the watch error otherwise. *)
Theorem waitForDelete_cancels_watch W (h : Handler W) ns key s w watcher :
  fst (h (WatchCreate ns (WatchKey key)) w) = Resolved watcher ->
  let opened := snd (h (WatchCreate ns (WatchKey key)) w) in
  let wait := h (AwaitDeleteOrError watcher) opened in
  let cancel := h (WatchCancel watcher) (snd wait) in
  let out := exec h (waitForDelete ns key) s w in
  trace out = [(s, WatchCreate ns (WatchKey key));
               (s, AwaitDeleteOrError watcher);
               (s, WatchCancel watcher)] /\
  world out = snd cancel /\
  final out = s /\
  result out =
    match fst cancel with
    | Resolved _ =>
        match fst wait with
        | Resolved _ => Ok tt
        | Rejected why => Raise (StoreFailure why)
        end
    | Rejected why => Raise (StoreFailure why)
    end.
Proof.
  intro Hopen. cbv zeta. rewrite exec_waitForDelete. cbv zeta.
  rewrite Hopen. repeat split.
Qed.

Lemma waitForDelete_cancels_watch_witness :
  let out := exec scripted (waitForDelete RootNamespace "election/svc/7")
                  new_session (4, [Settles; Fails "watch error"; Settles]) in
  trace out = [(new_session, WatchCreate RootNamespace (WatchKey "election/svc/7"));
               (new_session, AwaitDeleteOrError (WatcherObj 4));
               (new_session, WatchCancel (WatcherObj 4))] /\
  result out = Raise (StoreFailure "watch error").
Proof.
  pose proof (@waitForDelete_cancels_watch Script scripted RootNamespace
                "election/svc/7" new_session
                (4, [Settles; Fails "watch error"; Settles])
                (WatcherObj 4) eq_refl) as [Ht [_ [_ Hr]]].
  split; [exact Ht | exact Hr].
Defined.

(** ** [waitForElected] *)

(** A revision string denotes its integer, whatever its size. *)
Lemma BigNumber_of_revision_string (r : Z) :
  BigNumber.of_string (revision_string r) = Some r.
Proof.
  unfold BigNumber.of_string, revision_string.
  rewrite NilZero.isi.
  - simpl. now rewrite DecimalZ.of_to.
  - destruct r; simpl; try discriminate.
    intros [= H]. now apply DecimalPos.Unsigned.to_uint_nonnil in H.
  - destruct r; simpl; try discriminate.
    intros [= H]. now apply DecimalPos.Unsigned.to_uint_nonnil in H.
Qed.

Lemma lastRevision_exact el s (r : Z) :
  leaderRevision s = revision_string r ->
  waitForElected_query el s
    = mkRangeQuery (namespace el) (Some (revision_string (r - 1)))
                   "Create" Descend.
Proof.
  intro Hr. unfold waitForElected_query, lastRevision.
  now rewrite Hr, BigNumber_of_revision_string.
Qed.

Lemma filter_twice (X : Type) (f g : X -> bool) (l : list X) :
  filter f (filter g l) = filter (fun x => g x && f x) l.
Proof.
  induction l as [| x l IH]; simpl; [reflexivity |].
  destruct (g x); simpl; [destruct (f x); now rewrite IH | exact IH].
Qed.

Lemma StronglySorted_weaken (X : Type) (R R' : X -> X -> Prop) (l : list X) :
  (forall a b, R a b -> R' a b) -> StronglySorted R l -> StronglySorted R' l.
Proof.
  intros HR. induction 1 as [| x l Hl IH Hx]; constructor.
  - exact IH.
  - eapply Forall_impl; [| exact Hx]. intro. apply HR.
Qed.

(** C5.  For a session whose [leaderRevision] is the revision [r] (any
    revision below 10^21, the range in which the model of [BigNumber]
    prints as the package does; it contains every 64-bit revision and
    integers no floating-point number represents), the
    query of the wait-for-turn phase is a range read over the election
    namespace bounded by [maxCreateRevision = r - 1], the bound being
    computed exactly on the integer the revision string denotes, sorted by
    creation revision descending.  Read as a range read is specified, it
    selects exactly the live keys of the election whose creation revision
    is strictly less than [r], in descending order of creation revision.
    When the read resolves with no key, [waitForElected] returns at once:
    the read is its only call. *)
Theorem waitForElected_selects_earlier el s (r : Z) :
  (0 <= r < 10 ^ 21)%Z ->
  leaderRevision s = revision_string r ->
  waitForElected_query el s
    = mkRangeQuery (namespace el) (Some (revision_string (r - 1)))
                   "Create" Descend /\
  (forall store, exists sel,
     range_select store (waitForElected_query el s) = Some sel /\
     Permutation sel
       (filter (fun k => under (namespace el) k && (sk_create k <? r)%Z)
               store) /\
     StronglySorted (fun a b => (sk_create b <= sk_create a)%Z) sel) /\
  (forall W (h : Handler W) w,
     fst (h (RangeKeys (waitForElected_query el s)) w) = Resolved [] ->
     exec h (waitForElected el) s w
       = mkRun s (Ok tt) (snd (h (RangeKeys (waitForElected_query el s)) w))
               [(s, RangeKeys (waitForElected_query el s))]).
Proof.
  intros _ Hr. split; [now apply lastRevision_exact |]. split.
  - intro store. rewrite (@lastRevision_exact el s r Hr).
    unfold range_select.
    cbn [rq_maxCreateRevision rq_namespace rq_sort_order].
    rewrite BigNumber_of_revision_string. eexists. split; [reflexivity |].
    split.
    + rewrite sort_by_create_perm, filter_twice.
      erewrite filter_ext; [reflexivity |].
      intro k. cbv beta. f_equal.
      destruct (Z.leb_spec (sk_create k) (r - 1)),
               (Z.ltb_spec (sk_create k) r); (reflexivity || lia).
    + eapply StronglySorted_weaken; [| apply sort_by_create_sorted].
      intros a b H. simpl in H. now apply Z.leb_le.
  - intros W h w Hempty. unfold waitForElected. run_method.
    destruct (h (RangeKeys (waitForElected_query el s)) w) as [a w1].
    simpl in Hempty. subst a. reflexivity.
Qed.

Lemma waitForElected_selects_earlier_witness :
  let s := set_leaderRevision "9007199254740993" elected_session in
  let store := [mkStoredKey "election/svc/3" 9007199254740992;
                mkStoredKey "election/svc/7" 9007199254740993;
                mkStoredKey "election/svc/9" 9007199254740994;
                mkStoredKey "election/svc/1" 41] in
  waitForElected_query svc s
    = mkRangeQuery (namespace svc) (Some "9007199254740992") "Create" Descend /\
  range_keys store (waitForElected_query svc s) = Some ["3"; "1"].
Proof.
  intros s store.
  assert (Hrange : (0 <= 9007199254740993 < 10 ^ 21)%Z)
    by (split; [discriminate | reflexivity]).
  destruct (@waitForElected_selects_earlier svc s 9007199254740993
              Hrange eq_refl) as [Hq _].
  split; [exact Hq | reflexivity].
Defined.

(** ** [waitForDeletes] *)

Lemma exec_waitForDeletes_task W (h : Handler W) ns key s w :
  exec h (waitForDeletes_task ns key) s w =
  let read := h (GetString ns key) w in
  match fst read with
  | Resolved None => mkRun s (Ok tt) (snd read) [(s, GetString ns key)]
  | Resolved (Some _) =>
      prepend [(s, GetString ns key)]
              (exec h (waitForDelete ns key) s (snd read))
  | Rejected why =>
      mkRun s (Raise (StoreFailure why)) (snd read) [(s, GetString ns key)]
  end.
Proof.
  unfold waitForDeletes_task.
  rewrite exec_bind, exec_bind, exec_perform. run_simpl.
  rewrite exec_settle. run_simpl.
  destruct (fst (h (GetString ns key) w)) as [[v |] | why]; reflexivity.
Qed.

Lemma point_reads_app t1 t2 :
  point_reads (t1 ++ t2) = point_reads t1 ++ point_reads t2.
Proof. unfold point_reads. apply flat_map_app. Qed.

Lemma point_reads_task W (h : Handler W) ns key s w :
  point_reads (trace (exec h (waitForDeletes_task ns key) s w))
    = [(ns, key)] /\
  final (exec h (waitForDeletes_task ns key) s w) = s.
Proof.
  rewrite exec_waitForDeletes_task. cbv zeta.
  destruct (fst (h (GetString ns key) w)) as [[v |] | why]; run_simpl;
    try (split; reflexivity).
  rewrite exec_waitForDelete. cbv zeta.
  destruct (fst (h (WatchCreate ns (WatchKey key)) _)); split; reflexivity.
Qed.

Lemma exec_waitForDeletes_loop W (h : Handler W) ns keys :
  forall key s w,
    exec h (waitForDeletes_loop (waitForDeletes_task ns key)
              (map (waitForDeletes_task ns) keys)) s w
    = exec h (waitForDeletes_in_order ns (key :: keys)) s w.
Proof.
  induction keys as [| next keys IH]; intros key s w.
  - reflexivity.
  - change (exec h
              (bind (waitForDeletes_task ns key)
                 (fun _ => waitForDeletes_loop (waitForDeletes_task ns next)
                             (map (waitForDeletes_task ns) keys))) s w
            = exec h
                (bind (waitForDeletes_task ns key)
                   (fun _ => waitForDeletes_in_order ns (next :: keys))) s w).
    rewrite !exec_bind.
    destruct (result (exec h (waitForDeletes_task ns key) s w));
      [now rewrite IH | reflexivity].
Qed.

Lemma point_reads_in_order W (h : Handler W) ns keys :
  forall s w,
    (exists n,
       point_reads (trace (exec h (waitForDeletes_in_order ns keys) s w))
         = firstn n (map (pair ns) keys)) /\
    (result (exec h (waitForDeletes_in_order ns keys) s w) = Ok tt ->
     point_reads (trace (exec h (waitForDeletes_in_order ns keys) s w))
       = map (pair ns) keys).
Proof.
  induction keys as [| key keys IH]; intros s w.
  - split; [exists 0 |]; reflexivity.
  - change (waitForDeletes_in_order ns (key :: keys))
      with (bind (waitForDeletes_task ns key)
                 (fun _ => waitForDeletes_in_order ns keys)).
    rewrite exec_bind.
    destruct (point_reads_task h ns key s w) as [Hreads _].
    destruct (result (exec h (waitForDeletes_task ns key) s w)) as [u | e];
      run_simpl.
    + rewrite point_reads_app, Hreads.
      destruct (IH (final (exec h (waitForDeletes_task ns key) s w))
                   (world (exec h (waitForDeletes_task ns key) s w)))
        as [[n Hn] Hall].
      split.
      * exists (S n). cbn [firstn map app]. now rewrite Hn.
      * intro Hok. cbn [map app]. now rewrite (Hall Hok).
    + rewrite Hreads. split; [exists 1; now destruct keys | discriminate].
Qed.

(** The loop of the source runs as the sequential wait of the
    specification. *)
Lemma exec_waitForDeletes_spec W (h : Handler W) ns keys s w :
  exec h (waitForDeletes ns keys) s w
    = exec h (waitForDeletes_spec ns keys) s w.
Proof.
  destruct keys as [| k1 [| k2 rest]]; try reflexivity.
  apply (exec_waitForDeletes_loop h ns (k2 :: rest) k1).
Qed.

(** C6.  [waitForDeletes] of the empty list is done without a call; of a
    single key it is [waitForDelete] of that key; of two or more keys it
    runs as the sequential wait of the specification: the keys are taken
    strictly in order, each with a point read first, a key that is gone
    is skipped at once and a key that exists is waited for, and the point
    reads made are an initial segment of the keys, all of them when the
    call returns. *)
Theorem waitForDeletes_in_sequence (ns : Namespace) :
  (forall s, waitForDeletes ns [] s = Done (s, Ok tt)) /\
  (forall key, waitForDeletes ns [key] = waitForDelete ns key) /\
  (forall keys W (h : Handler W) s w,
     exec h (waitForDeletes ns keys) s w
       = exec h (waitForDeletes_spec ns keys) s w) /\
  (forall k1 k2 rest W (h : Handler W) s w,
     let keys := k1 :: k2 :: rest in
     (exists n,
        point_reads (trace (exec h (waitForDeletes ns keys) s w))
          = firstn n (map (pair ns) keys)) /\
     (result (exec h (waitForDeletes ns keys) s w) = Ok tt ->
      point_reads (trace (exec h (waitForDeletes ns keys) s w))
        = map (pair ns) keys)) /\
  (forall key W (h : Handler W) s w,
     exec h (waitForDeletes_task ns key) s w =
     match fst (h (GetString ns key) w) with
     | Resolved None =>
         mkRun s (Ok tt) (snd (h (GetString ns key) w))
               [(s, GetString ns key)]
     | Resolved (Some _) =>
         prepend [(s, GetString ns key)]
                 (exec h (waitForDelete ns key) s
                       (snd (h (GetString ns key) w)))
     | Rejected why =>
         mkRun s (Raise (StoreFailure why)) (snd (h (GetString ns key) w))
               [(s, GetString ns key)]
     end).
Proof.
  split; [reflexivity |]. split; [reflexivity |].
  split; [intros; apply exec_waitForDeletes_spec |].
  split.
  - intros k1 k2 rest W h s w keys. subst keys.
    rewrite exec_waitForDeletes_spec.
    apply (point_reads_in_order h ns (k1 :: k2 :: rest)).
  - intros. apply exec_waitForDeletes_task.
Qed.

Lemma waitForDeletes_in_sequence_witness :
  let out := exec scripted (waitForDeletes RootNamespace ["a"; "b"; "c"])
                  new_session
                  (0, [GivesValue None; GivesValue (Some "B"); Settles;
                       Settles; Settles; GivesValue None]) in
  result out = Ok tt /\
  point_reads (trace out)
    = [(RootNamespace, "a"); (RootNamespace, "b"); (RootNamespace, "c")] /\
  map snd (trace out)
    = [GetString RootNamespace "a";
       GetString RootNamespace "b";
       WatchCreate RootNamespace (WatchKey "b");
       AwaitDeleteOrError (WatcherObj 0);
       WatchCancel (WatcherObj 0);
       GetString RootNamespace "c"].
Proof.
  destruct (waitForDeletes_in_sequence RootNamespace)
    as [_ [_ [_ [Hreads _]]]].
  split; [reflexivity |]. split; [| reflexivity].
  apply (Hreads "a" "b" ["c"] Script scripted new_session). reflexivity.
Defined.

(** ** [campaign] *)

Lemma isCampaigning_proclaim W (h : Handler W) el value s w :
  isCampaigning (final (exec h (proclaim el value) s w)) = isCampaigning s.
Proof.
  rewrite exec_proclaim. cbv zeta.
  destruct (isCampaigning s) eqn:Hc; [| exact Hc].
  destruct (fst (h (TxnCommit (proclaim_txn el s value)) w)) as [r | why];
    [destruct (succeeded r) |]; exact Hc.
Qed.

Lemma final_waitForDelete W (h : Handler W) ns key s w :
  final (exec h (waitForDelete ns key) s w) = s.
Proof.
  rewrite exec_waitForDelete. cbv zeta.
  destruct (fst (h (WatchCreate ns (WatchKey key)) w)); reflexivity.
Qed.

Lemma final_in_order W (h : Handler W) ns keys :
  forall s w, final (exec h (waitForDeletes_in_order ns keys) s w) = s.
Proof.
  induction keys as [| key keys IH]; intros s w; [reflexivity |].
  change (waitForDeletes_in_order ns (key :: keys))
    with (bind (waitForDeletes_task ns key)
               (fun _ => waitForDeletes_in_order ns keys)).
  rewrite exec_bind.
  destruct (point_reads_task h ns key s w) as [_ Hs].
  destruct (result (exec h (waitForDeletes_task ns key) s w)); run_simpl;
    [now rewrite IH | exact Hs].
Qed.

Lemma final_waitForDeletes W (h : Handler W) ns keys s w :
  final (exec h (waitForDeletes ns keys) s w) = s.
Proof.
  rewrite exec_waitForDeletes_spec.
  destruct keys as [| k1 [| k2 rest]];
    [reflexivity | apply final_waitForDelete | apply final_in_order].
Qed.

Lemma final_waitForElected W (h : Handler W) el s w :
  final (exec h (waitForElected el) s w) = s.
Proof.
  unfold waitForElected.
  rewrite exec_bind, exec_this. run_simpl.
  rewrite exec_bind, exec_bind, exec_perform. run_simpl.
  rewrite exec_settle. run_simpl.
  destruct (fst (h (RangeKeys (waitForElected_query el s)) w))
    as [[| k ks] | why]; run_simpl; try reflexivity.
  apply final_waitForDeletes.
Qed.

(** A body under a [catch] block of [campaign]: when the body raises,
    [resign] runs from where the body stopped; the error of the body is
    raised again if [resign] returns, and the error of [resign] is raised
    otherwise. *)
Lemma exec_guarded W (h : Handler W) el (phase : M unit) s w :
  exec h (try_catch phase (resign_and_rethrow el)) s w =
  match result (exec h phase s w) with
  | Ok _ => exec h phase s w
  | Raise e0 =>
      let failed := exec h phase s w in
      let cleanup := exec h (resign el) (final failed) (world failed) in
      mkRun (final cleanup)
            (match result cleanup with
             | Ok _ => Raise e0
             | Raise e' => Raise e'
             end)
            (world cleanup) (trace failed ++ trace cleanup)
  end.
Proof.
  rewrite exec_try_catch.
  destruct (result (exec h phase s w)) as [u | e0]; [reflexivity |].
  unfold resign_and_rethrow. rewrite exec_bind. cbv zeta.
  destruct (result (exec h (resign el) _ _)); run_simpl;
    [rewrite exec_throw; run_simpl; now rewrite app_nil_r | reflexivity].
Qed.

Lemma guarded_raises W (h : Handler W) el (phase : M unit) s w e0 :
  result (exec h phase s w) = Raise e0 ->
  exists e, result (exec h (try_catch phase (resign_and_rethrow el)) s w)
            = Raise e.
Proof.
  intro Hfail. rewrite exec_guarded, Hfail. cbv zeta. run_simpl.
  destruct (result (exec h (resign el) _ _)); eauto.
Qed.

Lemma isCampaigning_else_branch W (h : Handler W) el value res s w :
  isCampaigning (final (exec h (campaign_else_branch el value res) s w))
    = isCampaigning s.
Proof.
  unfold campaign_else_branch, existing_kv.
  rewrite exec_bind.
  destruct (responses res) as [| [[| kv kvs] | |] rest];
    try (rewrite exec_throw; reflexivity).
  rewrite exec_ret. run_simpl.
  rewrite exec_bind, exec_assign. run_simpl.
  destruct (negb (kv_value kv =? value)%string).
  - now rewrite isCampaigning_proclaim.
  - reflexivity.
Qed.

(** What a failure of a protected phase leads to. *)
Lemma guarded_failure W (h : Handler W) el value res (phase : M unit)
    s0 w0 t0 e e0 (out : Run W unit) :
  In phase (protected_phases el value res) ->
  result (exec h phase s0 w0) = Raise e0 ->
  isCampaigning (final (exec h phase s0 w0)) = true ->
  result out = Raise e ->
  out = prepend t0 (exec h (try_catch phase (resign_and_rethrow el)) s0 w0) ->
  resigned_after_failure h el value res e out.
Proof.
  intros Hin Hfail Hcamp Hout Heq.
  exists phase, s0, w0, t0, e0.
  split; [assumption |]. split; [assumption |]. split; [assumption |].
  cbv zeta. rewrite exec_guarded, Hfail in Heq. cbv zeta in Heq.
  subst out. run_simpl. run_simpl in Hout.
  split.
  - rewrite exec_resign, Hcamp. cbv zeta.
    destruct (fst (h (TxnCommit _) _)) as [r | why];
      [destruct (succeeded r);
       [| destruct (lease _); [destruct (fst (h (LeaseRevoke _) _)) |]] |];
      eexists; reflexivity.
  - repeat (split; [reflexivity |]).
    intro Hthrough.
    destruct (@resign_outcome W h el _ (world (exec h phase s0 w0))
                Hcamp Hthrough) as [Hok Hfields].
    destruct Hfields as [Hkey [Hrev Hcleared]].
    rewrite Hok in Hout. split; [congruence | auto].
Qed.

(** Every failure of [campaign] after its transaction has resolved is a
    failure of a protected phase, followed by [resign]. *)
Lemma after_commit_failure_resigns W (h : Handler W) el value res s w e :
  result (exec h (campaign_after_commit el value res) s w) = Raise e ->
  resigned_after_failure h el value res e
    (exec h (campaign_after_commit el value res) s w).
Proof.
  intro Hout.
  set (s1 := set_isCampaigning true
               (set_leaderRevision (header_revision res)
                  (set_leaderKey (getPrefix el ++ leaseId s)%string s))).
  assert (Hs1 : isCampaigning s1 = true) by reflexivity.
  assert (Hrun : exec h (campaign_after_commit el value res) s w =
            exec h
              (bind (if negb (succeeded res)
                     then try_catch (campaign_else_branch el value res)
                                    (resign_and_rethrow el)
                     else ret tt)
                    (fun _ => try_catch (waitForElected el)
                                        (resign_and_rethrow el))) s1 w).
  { unfold campaign_after_commit. rewrite exec_bind, exec_assign.
    cbn [result final world trace]. apply prepend_nil. }
  assert (Hwait : forall s0 w0 t0,
            isCampaigning s0 = true ->
            exec h (campaign_after_commit el value res) s w
              = prepend t0 (exec h (try_catch (waitForElected el)
                                      (resign_and_rethrow el)) s0 w0) ->
            exists e0, result (exec h (waitForElected el) s0 w0) = Raise e0).
  { intros s0 w0 t0 _ Heq. rewrite Heq in Hout. run_simpl in Hout.
    rewrite exec_guarded in Hout.
    destruct (result (exec h (waitForElected el) s0 w0)) as [u | e0] eqn:E;
      [congruence | eauto]. }
  destruct (succeeded res); cbn [negb] in Hrun.
  - (* the create branch ran: only the wait can fail *)
    rewrite exec_bind, exec_ret in Hrun.
    cbn [result final world trace] in Hrun.
    destruct (Hwait s1 w [] Hs1 Hrun) as [e0 Hfail].
    eapply guarded_failure with (phase := waitForElected el);
      [right; now left | exact Hfail | | exact Hout | exact Hrun].
    now rewrite final_waitForElected.
  - (* the else branch ran *)
    assert (Hc : isCampaigning
                   (final (exec h (campaign_else_branch el value res) s1 w))
                 = true) by now rewrite isCampaigning_else_branch.
    destruct (result (exec h (campaign_else_branch el value res) s1 w))
      as [u | e0] eqn:Helse.
    + rewrite exec_bind, exec_guarded in Hrun.
      rewrite Helse in Hrun. cbv beta iota in Hrun.
      rewrite Helse in Hrun. cbv beta iota in Hrun.
      destruct (Hwait _ _ _ Hc Hrun) as [e0 Hfail].
      eapply guarded_failure with (phase := waitForElected el);
        [right; now left | exact Hfail | | exact Hout | exact Hrun].
      now rewrite final_waitForElected.
    + destruct (guarded_raises h el _ s1 w Helse) as [e1 He1].
      rewrite (exec_bind_raise h _ _ s1 w He1) in Hrun.
      eapply guarded_failure with
        (phase := campaign_else_branch el value res) (t0 := []);
        [now left | exact Helse | exact Hc | exact Hout |].
      now rewrite prepend_nil.
Qed.

Lemma resigned_after_failure_prepend W (h : Handler W) el value res e t
    (out : Run W unit) :
  resigned_after_failure h el value res e out ->
  resigned_after_failure h el value res e (prepend t out).
Proof.
  intros (phase & s0 & w0 & t0 & e0 & Hin & Hfail & Hcamp & Hrest).
  exists phase, s0, w0, (t ++ t0), e0.
  split; [assumption |]. split; [assumption |]. split; [assumption |].
  cbv zeta in Hrest |- *.
  destruct Hrest as (Hcall & Htrace & Hfinal & Hworld & Hresult & Hclear).
  run_simpl. rewrite Htrace, <- app_assoc. auto 6.
Qed.

Lemma initialize_keeps_candidacy W (h : Handler W) el s w :
  same_candidacy s (final (exec h (initialize el) s w)).
Proof.
  rewrite exec_initialize.
  destruct (lease s); [repeat split |]. cbv zeta.
  destruct (fst (h (LeaseGrant _) _)); repeat split.
Qed.

(** C1 (amended).  A [campaign] that raises has failed in one of three
    places.  If the lease could not be acquired, or if the store rejected
    the transaction of [campaign], that error is raised and the candidacy
    is as it was: no [resign()] is involved.  Otherwise the transaction
    has resolved and the failure is that of one of the two protected
    phases (reading the existing key and proclaiming again, or waiting
    for the turn): the session is campaigning where the phase stops,
    [campaign] runs [resign()] from there, starting with its conditional
    delete, and ends where [resign()] ends.  When [resign()] returns,
    [campaign] raises the error of the failed phase, and when the cleanup
    of [resign()] goes through (its transaction resolves and succeeds, or
    fails with a lease held whose revocation resolves) the session is no
    longer campaigning; when [resign()] raises, [campaign] raises that
    error instead. *)
Theorem campaign_failure_resigns W (h : Handler W) el value s w e :
  result (exec h (campaign el value) s w) = Raise e ->
  let out := exec h (campaign el value) s w in
  let init := exec h (initialize el) s w in
  match result init with
  | Raise e1 => e = e1 /\ same_candidacy s (final out)
  | Ok _ =>
      match fst (h (TxnCommit (campaign_txn el (final init) value))
                   (world init)) with
      | Rejected why => e = StoreFailure why /\ same_candidacy s (final out)
      | Resolved res => resigned_after_failure h el value res e out
      end
  end.
Proof.
  intro Hout. cbv zeta. unfold campaign in Hout |- *.
  rewrite exec_bind in Hout |- *.
  pose proof (initialize_keeps_candidacy h el s w) as Hinit.
  destruct (result (exec h (initialize el) s w)) as [u | e1].
  - rewrite exec_this_bind in Hout |- *.
    rewrite (exec_call_bind h (TxnCommit _) (fun a => a)) in Hout |- *.
    destruct (fst (h (TxnCommit _) _)) as [res | why].
    + apply resigned_after_failure_prepend, resigned_after_failure_prepend.
      run_simpl in Hout.
      now apply after_commit_failure_resigns.
    + run_simpl in Hout. run_simpl. split; [congruence | exact Hinit].
  - run_simpl in Hout. run_simpl. split; [congruence | exact Hinit].
Qed.

Lemma campaign_failure_resigns_witness :
  let w := (0, [GivesString "7"; GivesTxn (txn_response "5" true);
                Fails "range read failed"; GivesTxn (txn_response "6" true)]) in
  let out := exec scripted (campaign svc "A") new_session w in
  result out = Raise (StoreFailure "range read failed") /\
  isCampaigning (final out) = false /\
  resigned_after_failure scripted svc "A" (txn_response "5" true)
    (StoreFailure "range read failed") out.
Proof.
  intros w out.
  split; [reflexivity |]. split; [reflexivity |].
  apply (@campaign_failure_resigns Script scripted svc "A" new_session w
           (StoreFailure "range read failed")).
  reflexivity.
Defined.

(** C1 as stated fails: when the wait for the turn fails and the store
    then rejects the transaction of [resign()] as well, [campaign] raises
    the error of [resign()], not the original one, and the session is
    still campaigning. *)
Lemma campaign_failure_may_stay_campaigning :
  let out := exec scripted (campaign svc "A") new_session
               (0, [GivesString "7"; GivesTxn (txn_response "5" true);
                    Fails "range read failed"; Fails "unavailable"]) in
  result out = Raise (StoreFailure "unavailable") /\
  isCampaigning (final out) = true /\
  leaderKey (final out) = "election/svc/7" /\
  map snd (trace out)
    = [NewLease (namespace svc) 60;
       LeaseOnLost (LeaseObj 0);
       LeaseGrant (LeaseObj 0);
       TxnCommit (campaign_txn svc (set_leaseId "7" new_session) "A");
       RangeKeys (waitForElected_query svc elected_session);
       TxnCommit (resign_txn svc elected_session)].
Proof. repeat split. Qed.

(** ** Calls made under an invariant of the session *)

Lemma triple_events (A : Type) (T T' : Event -> Prop) (P : Session -> Prop)
    (m : M A) Q :
  (forall ev, T ev -> T' ev) -> triple P m T Q -> triple P m T' Q.
Proof.
  intros HT Hm W h w s HP. destruct (Hm W h w s HP) as [Ht Hq].
  split; [eapply Forall_impl; eauto | assumption].
Qed.

Section UnderInvariant.

(** [P] is a property of the session that the waits do not touch, and
    [T] holds of every call made under [P] that is not one of the two
    calls made outside the loop body. *)
Variable T : Event -> Prop.
Variable P : Session -> Prop.
Hypothesis HT : forall s r, P s -> outside_body r = false -> T (s, r).

Lemma triple_call r (X : Type) (cast : Answer r -> Reply X) :
  outside_body r = false ->
  triple P (bind (perform r) (fun a => settle (cast a))) T (fun _ s => P s).
Proof. intro Hr. apply triple_await. intros s HP. now apply HT. Qed.

Lemma triple_watch_scope (X : Type) (watcher : Watcher)
    (r : Request) (cast : Answer r -> Reply X) :
  outside_body r = false ->
  triple P
    (try_finally (bind (perform r) (fun a => settle (cast a)))
                 (await (WatchCancel watcher)))
    T (fun _ s => P s).
Proof.
  intro Hr.
  apply triple_try_finally with (Q1 := fun _ s => P s).
  - now apply triple_call.
  - intros res.
    eapply triple_weaken;
      [apply (@triple_call (WatchCancel watcher) unit (fun a => a) eq_refl)
      | auto |].
    intros [u | e] s HP; exact HP.
Qed.

Lemma triple_waitForDelete ns key :
  triple P (waitForDelete ns key) T (fun _ s => P s).
Proof.
  unfold waitForDelete.
  apply triple_bind with (Q1 := fun _ s => P s).
  - apply (@triple_call (WatchCreate ns (WatchKey key)) Watcher
             (fun a => a) eq_refl).
  - intro watcher.
    apply (@triple_watch_scope unit watcher (AwaitDeleteOrError watcher)
             (fun a => a) eq_refl).
  - auto.
Qed.

Lemma triple_waitForDeletes_task ns key :
  triple P (waitForDeletes_task ns key) T (fun _ s => P s).
Proof.
  unfold waitForDeletes_task.
  apply triple_bind with (Q1 := fun _ s => P s).
  - apply (@triple_call (GetString ns key) (option string)
             (fun a => a) eq_refl).
  - intros [v |]; [apply triple_waitForDelete | now apply triple_ret].
  - auto.
Qed.

Lemma triple_waitForDeletes_loop ns keys :
  forall key,
    triple P (waitForDeletes_loop (waitForDeletes_task ns key)
                (map (waitForDeletes_task ns) keys))
           T (fun _ s => P s).
Proof.
  induction keys as [| next keys IH]; intro key;
    apply triple_bind with (Q1 := fun _ s => P s);
    try apply triple_waitForDeletes_task; auto.
  intros _. now apply triple_ret.
Qed.

Lemma triple_waitForDeletes ns keys :
  triple P (waitForDeletes ns keys) T (fun _ s => P s).
Proof.
  destruct keys as [| k1 [| k2 rest]].
  - now apply triple_ret.
  - apply triple_waitForDelete.
  - apply (triple_waitForDeletes_loop ns (k2 :: rest) k1).
Qed.

Lemma triple_waitForElected el :
  triple P (waitForElected el) T (fun _ s => P s).
Proof.
  unfold waitForElected. apply triple_this. intros s0 HP.
  apply triple_weaken with (P := P) (Q := fun _ s => P s);
    [| now intros s -> | auto].
  apply triple_bind with (Q1 := fun _ s => P s).
  - apply (@triple_call (RangeKeys (waitForElected_query el s0))
             (list string) (fun a => a) eq_refl).
  - intros [| k ks]; [now apply triple_ret | apply triple_waitForDeletes].
  - auto.
Qed.

End UnderInvariant.

(** ** [observe] and [tryObserve] *)

Lemma inside_when_observing s r :
  isObserving s = true -> outside_body r = false -> inside_body (s, r).
Proof. intros; split; assumption. Qed.

Lemma observe_body_flag el :
  triple (fun _ => True) (observe_body el) inside_body
         (fun _ s => isObserving s = false).
Proof.
  unfold observe_body.
  apply triple_try_finally with (Q1 := fun _ s => isObserving s = true).
  - apply triple_bind with (Q1 := fun _ s => isObserving s = true); auto.
    { apply triple_assign. reflexivity. }
    intros _.
    apply triple_bind with (Q1 := fun _ s => isObserving s = true); auto.
    { apply (@triple_call _ _ inside_when_observing
               (RangeKeys (leader_query el)) (list string)
               (fun a => a) eq_refl). }
    intros keys.
    apply triple_bind with (Q1 := fun _ s => isObserving s = true); auto.
    { destruct keys as [| first rest]; [| now apply triple_ret].
      apply triple_bind with (Q1 := fun _ s => isObserving s = true); auto.
      - apply (@triple_call _ _ inside_when_observing
                 (WatchCreate (parent el) (WatchPrefix (getPrefix el)))
                 Watcher (fun a => a) eq_refl).
      - intro watcher.
        apply (@triple_watch_scope _ _ inside_when_observing string watcher
                 (AwaitPutOrError watcher) (fun a => a) eq_refl). }
    intros leader.
    apply triple_bind with (Q1 := fun _ s => isObserving s = true); auto.
    { apply triple_perform; [| auto].
      intros s Hs. now apply inside_when_observing. }
    intros _. apply (@triple_waitForDelete _ _ inside_when_observing).
  - intros r. apply triple_assign. reflexivity.
Qed.

Lemma tryObserve_flag el fuel :
  triple (fun s => isObserving s = false) (tryObserve el fuel)
         flag_follows_body (fun _ s => isObserving s = false).
Proof.
  induction fuel as [| n IH]; [now apply triple_ret |].
  cbn [tryObserve].
  apply triple_detached with (Q1 := fun _ s => isObserving s = false);
    [| auto].
  apply triple_try_catch with (Q1 := fun _ s => isObserving s = false); auto.
  - unfold observe. apply triple_this. intros s0 H0.
    unfold isObserving in H0. rewrite H0.
    apply triple_bind with (Q1 := fun _ s => isObserving s = false); auto.
    { eapply triple_weaken;
        [eapply triple_events; [| apply observe_body_flag]
        | intros; exact I | auto].
      intros ev [Hup Hin]. unfold flag_follows_body. now rewrite Hup, Hin. }
    intros _.
    apply triple_bind with (Q1 := fun _ s => isObserving s = false); auto.
    { apply triple_perform; auto. }
    intros count. destruct (Nat.ltb 0 count); [exact IH | now apply triple_ret].
  - intro e.
    apply triple_bind with (Q1 := fun _ s => isObserving s = false); auto.
    apply triple_emit_error; auto.
Qed.

(** C8.  When [isObserving] is already true, [observe()] returns at once:
    it makes no call and leaves the session as it is.  Otherwise every
    call of one loop body is made with [isObserving] true, and the body
    ends, whether it returns or raises, with [isObserving] false.  In
    every run of [tryObserve] started with the flag down, the flag is up
    at each call of a loop body and down at each call that leads to a
    restart (the listener count after a body, the error notification
    after a failure) and at the end. *)
Theorem observe_one_loop_at_a_time el :
  (forall restart s,
     isObserving s = true -> observe el restart s = Done (s, Ok tt)) /\
  triple (fun _ => True) (observe_body el) inside_body
         (fun _ s => isObserving s = false) /\
  (forall fuel,
     triple (fun s => isObserving s = false) (tryObserve el fuel)
            flag_follows_body (fun _ s => isObserving s = false)).
Proof.
  split; [| split; [apply observe_body_flag | apply tryObserve_flag]].
  intros restart s Hs. unfold observe, bind, this. cbn.
  unfold isObserving in Hs. rewrite Hs. reflexivity.
Qed.

Lemma observe_one_loop_at_a_time_witness :
  let out := exec scripted (tryObserve svc 2) new_session
               (0, [GivesKeys ["7"]; Settles; Settles; Settles; GivesCount 1;
                    Fails "range read failed"]) in
  map (fun ev => (isObserving (fst ev), snd ev)) (trace out)
    = [(true, RangeKeys (leader_query svc));
       (true, EmitLeader "election/svc/7");
       (true, WatchCreate RootNamespace (WatchKey "election/svc/7"));
       (true, AwaitDeleteOrError (WatcherObj 0));
       (true, WatchCancel (WatcherObj 0));
       (false, ListenerCountLeader);
       (true, RangeKeys (leader_query svc));
       (false, EmitError (StoreFailure "range read failed"))] /\
  Forall flag_follows_body (trace out) /\
  isObserving (final out) = false /\
  observe svc (tryObserve svc 2) (set_isObserving true new_session)
    = Done (set_isObserving true new_session, Ok tt).
Proof.
  destruct (observe_one_loop_at_a_time svc) as [Hguard [_ Hloop]].
  split; [reflexivity |].
  destruct (Hloop 2 Script scripted
              (0, [GivesKeys ["7"]; Settles; Settles; Settles; GivesCount 1;
                   Fails "range read failed"])
              new_session eq_refl) as [Hflag Hend].
  split; [exact Hflag |]. split; [exact Hend |].
  apply Hguard. reflexivity.
Defined.

(** ** The lease: [initialize], [onLeaseLost] and the fallback of [resign] *)

Lemma exec_discard_lease W (h : Handler W) s w :
  exec h discard_lease s w =
  match lease s with
  | Some l =>
      mkRun (set_leaseId "" (set_lease None s)) (Ok tt)
            (snd (h (LeaseRemoveAllListeners l) w))
            [(s, LeaseRemoveAllListeners l)]
  | None => mkRun s (Ok tt) w []
  end.
Proof.
  unfold discard_lease. run_method.
  destruct (lease s) as [l |]; reflexivity.
Qed.

Lemma exec_onLeaseLost W (h : Handler W) el s w :
  exec h (onLeaseLost el) s w =
  let lost := exec h discard_lease s w in
  let init := exec h (initialize el) (final lost) (world lost) in
  match result init with
  | Ok _ => mkRun (final init) (Ok tt) (world init) (trace lost ++ trace init)
  | Raise e =>
      mkRun (final init) (Ok tt)
            (snd (h (EmitError e) (world init)))
            (trace lost ++ trace init ++ [(final init, EmitError e)])
  end.
Proof.
  unfold onLeaseLost. rewrite exec_bind.
  assert (Hok : result (exec h discard_lease s w) = Ok tt).
  { rewrite exec_discard_lease. destruct (lease s); reflexivity. }
  rewrite Hok. cbv zeta. rewrite exec_detached, exec_try_catch.
  destruct (result (exec h (initialize el) _ _)) as [[] | e] eqn:E.
  - reflexivity.
  - rewrite exec_emit_error. reflexivity.
Qed.

Lemma Forall_anywhere (t : list Event) : Forall anywhere t.
Proof. induction t; constructor; [exact I | assumption]. Qed.

Lemma anywhere_holds (P : Session -> Prop) s r :
  P s -> outside_body r = false -> anywhere (s, r).
Proof. intros; exact I. Qed.

(** Every public method keeps a session that holds a lease object without
    a lease id in that condition. *)
Lemma initialize_keeps_lease_without_id el :
  triple lease_without_id (initialize el) anywhere
         (fun _ s => lease_without_id s).
Proof.
  intros W h w s HI. split; [apply Forall_anywhere |].
  rewrite exec_initialize.
  destruct (lease s) eqn:Hl; [exact HI |].
  destruct HI as [Hheld _]. congruence.
Qed.

Lemma proclaim_keeps_lease_without_id el value :
  triple lease_without_id (proclaim el value) anywhere
         (fun _ s => lease_without_id s).
Proof.
  intros W h w s HI. split; [apply Forall_anywhere |].
  rewrite exec_proclaim. cbv zeta.
  destruct (isCampaigning s); [| exact HI].
  destruct (fst (h (TxnCommit (proclaim_txn el s value)) w)) as [r | why];
    [destruct (succeeded r) |]; exact HI.
Qed.

Lemma resign_keeps_lease_without_id el :
  triple lease_without_id (resign el) anywhere
         (fun _ s => lease_without_id s).
Proof.
  intros W h w s HI. split; [apply Forall_anywhere |].
  rewrite exec_resign. cbv zeta.
  destruct (isCampaigning s); [| exact HI].
  destruct (fst (h (TxnCommit (resign_txn el s)) w)) as [r | why];
    [| exact HI].
  destruct (succeeded r); [exact HI |].
  destruct (lease s) as [l |] eqn:Hl; [| exact HI].
  destruct (fst (h (LeaseRevoke l) _)); [| exact HI].
  split; [discriminate | reflexivity].
Qed.

Lemma getLeader_keeps_lease_without_id el :
  triple lease_without_id (getLeader el) anywhere
         (fun _ s => lease_without_id s).
Proof.
  unfold getLeader.
  apply triple_bind with (Q1 := fun _ s => lease_without_id s); auto.
  - apply (@triple_call _ _ (@anywhere_holds lease_without_id)
             (RangeKeys (leader_query el)) (list string)
             (fun a => a) eq_refl).
  - intros [| first rest]; [now apply triple_throw | now apply triple_ret].
Qed.

Lemma rethrow_keeps_lease_without_id el error :
  triple lease_without_id (resign_and_rethrow el error) anywhere
         (fun _ s => lease_without_id s).
Proof.
  unfold resign_and_rethrow.
  apply triple_bind with (Q1 := fun _ s => lease_without_id s); auto.
  - apply resign_keeps_lease_without_id.
  - intros _. now apply triple_throw.
Qed.

Lemma campaign_keeps_lease_without_id el value :
  triple lease_without_id (campaign el value) anywhere
         (fun _ s => lease_without_id s).
Proof.
  unfold campaign.
  apply triple_bind with (Q1 := fun _ s => lease_without_id s); auto.
  { apply initialize_keeps_lease_without_id. }
  intros _. apply triple_this. intros s0 H0.
  apply triple_weaken with (P := lease_without_id)
                           (Q := fun _ s => lease_without_id s);
    [| now intros s -> | auto].
  apply triple_bind with (Q1 := fun _ s => lease_without_id s); auto.
  { apply (@triple_call _ _ (@anywhere_holds lease_without_id)
             (TxnCommit (campaign_txn el s0 value)) TxnResponse
             (fun a => a) eq_refl). }
  intros res. unfold campaign_after_commit.
  apply triple_bind with (Q1 := fun _ s => lease_without_id s); auto.
  { apply triple_assign. intros s HI. exact HI. }
  intros _.
  apply triple_bind with (Q1 := fun _ s => lease_without_id s); auto.
  { destruct (negb (succeeded res)); [| now apply triple_ret].
    apply triple_try_catch with (Q1 := fun _ s => lease_without_id s); auto.
    - unfold campaign_else_branch.
      apply triple_bind with (Q1 := fun _ s => lease_without_id s); auto.
      + unfold existing_kv.
        destruct (responses res) as [| [[| kv kvs] | |] rest];
          (now apply triple_throw) || (now apply triple_ret).
      + intros kv.
        apply triple_bind with (Q1 := fun _ s => lease_without_id s); auto.
        * apply triple_assign. intros s HI. exact HI.
        * intros _. destruct (negb (kv_value kv =? value)%string);
            [apply proclaim_keeps_lease_without_id | now apply triple_ret].
    - apply rethrow_keeps_lease_without_id. }
  intros _.
  apply triple_try_catch with (Q1 := fun _ s => lease_without_id s); auto.
  - apply (@triple_waitForElected _ _ (@anywhere_holds lease_without_id)).
  - apply rethrow_keeps_lease_without_id.
Qed.

(** C9 (amended).  When [resign()] takes its fallback (the conditional
    delete resolves without success while a lease reference is held) and
    the revocation resolves, the session ends with [leaseId] empty and a
    lease reference held, so [isReady] is false and [initialize()] is a
    no-op: it makes no call, hence grants no lease, and leaves the session
    as it is.  No public method leaves that condition, whatever the store
    answers.  The lease-lost handler does: it drops the reference, and its
    initialization asks for a grant and records the id granted. *)
Theorem resign_fallback_blocks_initialize W (h : Handler W) el s w l r :
  isCampaigning s = true ->
  lease s = Some l ->
  fst (h (TxnCommit (resign_txn el s)) w) = Resolved r ->
  succeeded r = false ->
  fst (h (LeaseRevoke l) (snd (h (TxnCommit (resign_txn el s)) w)))
    = Resolved tt ->
  let s' := final (exec h (resign el) s w) in
  result (exec h (resign el) s w) = Ok tt /\
  leaseId s' = "" /\
  isReady s' = false /\
  lease_without_id s' /\
  (forall W' (h' : Handler W') w',
     exec h' (initialize el) s' w' = mkRun s' (Ok tt) w' []) /\
  (forall s1, lease_without_id s1 ->
     forall value W' (h' : Handler W') w',
       lease_without_id (final (exec h' (initialize el) s1 w')) /\
       lease_without_id (final (exec h' (campaign el value) s1 w')) /\
       lease_without_id (final (exec h' (proclaim el value) s1 w')) /\
       lease_without_id (final (exec h' (resign el) s1 w')) /\
       lease_without_id (final (exec h' (getLeader el) s1 w'))) /\
  exists l',
    lease s' = Some l' /\
    forall W' (h' : Handler W') w',
      let drop := h' (LeaseRemoveAllListeners l') w' in
      let fresh := h' (NewLease (namespace el) (ttl el)) (snd drop) in
      let listen := h' (LeaseOnLost (fst fresh)) (snd fresh) in
      let grant := h' (LeaseGrant (fst fresh)) (snd listen) in
      let lost := exec h' (onLeaseLost el) s' w' in
      lease (final (exec h' discard_lease s' w')) = None /\
      In (LeaseGrant (fst fresh)) (map snd (trace lost)) /\
      forall id,
        fst grant = Resolved id ->
        leaseId (final lost) = id /\
        lease (final lost) = Some (fst fresh) /\
        isReady (final lost) = Nat.ltb 0 (String.length id).
Proof.
  intros Hc Hl Hcommit Hfail Hrevoke. cbv zeta.
  rewrite exec_resign, Hc. cbv zeta.
  rewrite Hcommit, Hfail, Hl, Hrevoke.
  set (fresh0 := fst (h (NewLease (namespace el) (ttl el)) _)).
  cbn [final result].
  set (s' := clear_candidacy (set_leaseId "" (set_lease (Some fresh0) s))).
  assert (HI : lease_without_id s') by (split; [discriminate | reflexivity]).
  split; [reflexivity |]. split; [reflexivity |]. split; [reflexivity |].
  split; [exact HI |]. split; [| split].
  - intros W' h' w'. rewrite exec_initialize. reflexivity.
  - intros s1 H1 value W' h' w'.
    repeat split;
      [ apply (initialize_keeps_lease_without_id el h' w' H1)
      | apply (initialize_keeps_lease_without_id el h' w' H1)
      | apply (campaign_keeps_lease_without_id el value h' w' H1)
      | apply (campaign_keeps_lease_without_id el value h' w' H1)
      | apply (proclaim_keeps_lease_without_id el value h' w' H1)
      | apply (proclaim_keeps_lease_without_id el value h' w' H1)
      | apply (resign_keeps_lease_without_id el h' w' H1)
      | apply (resign_keeps_lease_without_id el h' w' H1)
      | apply (getLeader_keeps_lease_without_id el h' w' H1)
      | apply (getLeader_keeps_lease_without_id el h' w' H1) ].
  - exists fresh0. split; [reflexivity |].
    intros W' h' w'. cbv zeta.
    rewrite exec_onLeaseLost, exec_discard_lease. cbv zeta.
    change (lease s') with (Some fresh0). cbn [final world trace].
    rewrite exec_initialize. cbn [lease set_leaseId set_lease]. cbv zeta.
    split; [reflexivity |].
    destruct (fst (h' (LeaseGrant _) _)) as [id0 | why] eqn:Hgrant;
      cbn [result final trace].
    + split.
      * rewrite map_app. apply in_or_app. right. simpl. auto.
      * intros id [= <-]. repeat split.
    + split.
      * rewrite !map_app. apply in_or_app. right.
        apply in_or_app. left. simpl. auto.
      * intros id [=].
Qed.

Lemma resign_fallback_blocks_initialize_witness :
  let out := exec scripted (resign svc) elected_session
               (1, [GivesTxn (txn_response "9" false); Settles]) in
  final out = mkSession (Some (LeaseObj 1)) "" "" "" false false /\
  isReady (final out) = false /\
  exec scripted (initialize svc) (final out) (2, [GivesString "8"])
    = mkRun (final out) (Ok tt) (2, [GivesString "8"]) [] /\
  leaseId (final (exec scripted (onLeaseLost svc) (final out)
                       (2, [GivesString "8"]))) = "8".
Proof.
  intro out.
  destruct (@resign_fallback_blocks_initialize Script scripted svc
              elected_session
              (1, [GivesTxn (txn_response "9" false); Settles])
              (LeaseObj 0) (txn_response "9" false)
              eq_refl eq_refl eq_refl eq_refl eq_refl)
    as [_ [_ [Hready [_ [Hnoop _]]]]].
  split; [reflexivity |]. split; [exact Hready |].
  split; [apply Hnoop | reflexivity].
Defined.

(** C9 as stated fails: when the conditional delete fails while a lease
    reference is held and the store rejects the revocation (line 132),
    [resign()] raises before it replaces the lease: the session keeps its
    lease and its [leaseId], and [isReady] is still true. *)
Lemma resign_fallback_revoke_rejected :
  let out := exec scripted (resign svc) elected_session
               (1, [GivesTxn (txn_response "9" false);
                    Fails "revoke failed"]) in
  isCampaigning elected_session = true /\
  lease elected_session = Some (LeaseObj 0) /\
  map snd (trace out)
    = [TxnCommit (resign_txn svc elected_session);
       LeaseRevoke (LeaseObj 0)] /\
  result out = Raise (StoreFailure "revoke failed") /\
  final out = elected_session /\
  leaseId (final out) = "7" /\
  isReady (final out) = true.
Proof. repeat split. Qed.

(** ** The lease-lost handler *)

(** C10 (amended).  Before it re-initializes, the lease-lost handler sets
    the lease reference to null and clears [leaseId], and changes nothing
    else; the whole handler, its background initialization included,
    changes at most the lease reference and [leaseId], so [leaderKey],
    [leaderRevision] and [isCampaigning] are as they were.  [proclaim]
    never changes [isCampaigning], whether it returns or fails (its failure
    clears [leaderKey] only); a [resign()] whose cleanup goes through sets
    it to false.  In every run [proclaim] leaves the session as it was or
    with [leaderKey] cleared and nothing else changed, the latter whenever
    a campaigning session gets [NotLeaderError]. *)
Theorem onLeaseLost_keeps_candidacy W (h : Handler W) el s w :
  exec h discard_lease s w =
    match lease s with
    | Some l =>
        mkRun (set_leaseId "" (set_lease None s)) (Ok tt)
              (snd (h (LeaseRemoveAllListeners l) w))
              [(s, LeaseRemoveAllListeners l)]
    | None => mkRun s (Ok tt) w []
    end /\
  only_lease_differs s (final (exec h (onLeaseLost el) s w)) /\
  same_candidacy s (final (exec h (onLeaseLost el) s w)) /\
  (forall value W' (h' : Handler W') s1 w',
     isCampaigning (final (exec h' (proclaim el value) s1 w'))
       = isCampaigning s1) /\
  (forall W' (h' : Handler W') s1 w',
     isCampaigning s1 = true ->
     resign_goes_through h' el s1 w' = true ->
     isCampaigning (final (exec h' (resign el) s1 w')) = false) /\
  (forall value W' (h' : Handler W') s1 w',
     (final (exec h' (proclaim el value) s1 w') = s1 \/
      final (exec h' (proclaim el value) s1 w') = set_leaderKey "" s1) /\
     (isCampaigning s1 = true ->
      result (exec h' (proclaim el value) s1 w') = Raise EtcdNotLeaderError ->
      final (exec h' (proclaim el value) s1 w') = set_leaderKey "" s1)).
Proof.
  split; [apply exec_discard_lease |].
  assert (Hframe : only_lease_differs s (final (exec h (onLeaseLost el) s w))).
  { rewrite exec_onLeaseLost, exec_discard_lease. cbv zeta.
    destruct s as [[l |] id key rev camp obs]; cbn [lease final world];
      rewrite exec_initialize; cbn [lease set_lease set_leaseId]; cbv zeta;
      destruct (fst (h (LeaseGrant _) _)); reflexivity. }
  split; [exact Hframe |]. split; [| split; [| split]].
  - unfold only_lease_differs in Hframe.
    destruct (final (exec h (onLeaseLost el) s w)).
    rewrite <- Hframe. repeat split.
  - intros. apply isCampaigning_proclaim.
  - intros W' h' s1 w' Hc Hthrough.
    apply (@resign_outcome W' h' el s1 w' Hc Hthrough).
  - intros value W' h' s1 w'. rewrite exec_proclaim. cbv zeta.
    destruct (isCampaigning s1);
      [destruct (fst (h' (TxnCommit (proclaim_txn el s1 value)) w'))
         as [r | why];
       [destruct (succeeded r) |] |];
      cbn [final result]; (split; [auto |]); intros Hc Hr;
      (reflexivity || discriminate).
Qed.

Lemma onLeaseLost_keeps_candidacy_witness :
  let lost := exec scripted (onLeaseLost svc) elected_session
                (1, [GivesString "8"]) in
  final lost = mkSession (Some (LeaseObj 1)) "8" "election/svc/7" "5" true false /\
  same_candidacy elected_session (final lost) /\
  isCampaigning
    (final (exec scripted (resign svc) (final lost)
                 (2, [GivesTxn (txn_response "9" false); Settles]))) = false.
Proof.
  intro lost.
  destruct (onLeaseLost_keeps_candidacy scripted svc elected_session
              (1, [GivesString "8"])) as [_ [_ [Hsame [_ [Hresign _]]]]].
  split; [reflexivity |]. split; [exact Hsame |].
  apply Hresign; reflexivity.
Defined.

(** C10 as stated fails: after a lease loss, a [proclaim] that fails on
    its create-revision check clears [leaderKey] and leaves
    [isCampaigning] true. *)
Lemma proclaim_failure_keeps_isCampaigning :
  let lost := exec scripted (onLeaseLost svc) elected_session
                (1, [GivesString "8"]) in
  let out := exec scripted (proclaim svc "B") (final lost)
               (2, [GivesTxn (txn_response "9" false)]) in
  isCampaigning (final lost) = true /\
  leaseId (final lost) = "8" /\
  result out = Raise EtcdNotLeaderError /\
  leaderKey (final out) = "" /\
  isCampaigning (final out) = true.
Proof. repeat split. Qed.

(** * Further properties *)

(** ** No watch is left open *)

Section Ledger.

Context {W : Type} (h : Handler W).

Lemma open_watches_app (t1 t2 : list Event) :
  forall w opened,
    open_watches h w opened (t1 ++ t2) =
    open_watches h (fst (open_watches h w opened t1))
                 (snd (open_watches h w opened t1)) t2.
Proof.
  induction t1 as [| ev t1 IH]; intros w opened; [reflexivity |].
  cbn [app open_watches]. apply IH.
Qed.

(** Made again, the calls of a run lead to the world the run ended in. *)
Lemma open_watches_run (A : Type) (p : Prog A) :
  forall w opened,
    fst (open_watches h w opened (snd (run h p w))) = snd (fst (run h p w)).
Proof.
  induction p as [a | s r k IH]; intros w opened; [reflexivity |].
  cbn [run snd fst open_watches]. apply IH.
Qed.

Lemma open_watches_exec (A : Type) (m : M A) s w opened :
  fst (open_watches h w opened (trace (exec h m s w)))
    = world (exec h m s w).
Proof. unfold exec. cbn [trace world]. apply open_watches_run. Qed.

(** The watches held after two runs in a row. *)
Lemma open_watches_seq (A : Type) (m : M A) (t : list Event) s w opened :
  snd (open_watches h w opened (trace (exec h m s w) ++ t)) =
  snd (open_watches h (world (exec h m s w))
         (snd (open_watches h w opened (trace (exec h m s w)))) t).
Proof. now rewrite open_watches_app, open_watches_exec. Qed.

End Ledger.

Section ReleasedRules.

Context {A : Type}.

Lemma released_ret (a : A) : released (ret a).
Proof. intros W h w s opened. reflexivity. Qed.

Lemma released_throw (e : Error) : released (@throw A e).
Proof. intros W h w s opened. reflexivity. Qed.

Lemma released_settle (a : Reply A) : released (settle a).
Proof. intros W h w s opened. rewrite exec_settle. reflexivity. Qed.

Lemma released_bind (B : Type) (m : M B) (f : B -> M A) :
  released m -> (forall b, released (f b)) -> released (bind m f).
Proof.
  intros Hm Hf W h w s opened. rewrite exec_bind.
  destruct (result (exec h m s w)) as [b | e]; run_simpl; [| apply Hm].
  rewrite open_watches_seq, Hm. apply Hf.
Qed.

Lemma released_this (k : Session -> M A) :
  (forall s, released (k s)) -> released (bind this k).
Proof. intros Hk W h w s opened. rewrite exec_this_bind. apply Hk. Qed.

Lemma released_try_catch (m : M A) (c : Error -> M A) :
  released m -> (forall e, released (c e)) -> released (try_catch m c).
Proof.
  intros Hm Hc W h w s opened. rewrite exec_try_catch.
  destruct (result (exec h m s w)) as [a | e]; run_simpl; [apply Hm |].
  rewrite open_watches_seq, Hm. apply Hc.
Qed.

Lemma released_try_finally (m : M A) (f : M unit) :
  released m -> released f -> released (try_finally m f).
Proof.
  intros Hm Hf W h w s opened. rewrite exec_try_finally. run_simpl.
  rewrite open_watches_seq, Hm. apply Hf.
Qed.

End ReleasedRules.

Lemma released_assign f : released (assign f).
Proof. intros W h w s opened. reflexivity. Qed.

Lemma released_detached (m : M unit) : released m -> released (detached m).
Proof.
  intros Hm W h w s opened. rewrite exec_detached. run_simpl. apply Hm.
Qed.

Lemma ledger_step_watch_free r (a : Answer r) opened :
  watch_free r = true -> ledger_step r a opened = opened.
Proof. destruct r; (discriminate || reflexivity). Qed.

Lemma released_perform r : watch_free r = true -> released (perform r).
Proof.
  intros Hr W h w s opened. rewrite exec_perform.
  cbn [trace open_watches snd]. now apply ledger_step_watch_free.
Qed.

Lemma released_call r (X : Type) (cast : Answer r -> Reply X) :
  watch_free r = true ->
  released (bind (perform r) (fun a => settle (cast a))).
Proof.
  intro Hr. apply released_bind; [now apply released_perform |].
  intro a. apply released_settle.
Qed.

Lemma released_emit_error e : released (emit_error e).
Proof.
  intros W h w s opened. rewrite exec_emit_error. reflexivity.
Qed.

Lemma remove_watch_head x opened : remove_watch x (x :: opened) = opened.
Proof.
  destruct x as [n]. cbn. now rewrite Nat.eqb_refl.
Qed.

(** The scope of a watch, lines 187-195 and 243-254: created, awaited in
    a [try], cancelled in its [finally]. *)
Lemma released_watch_scope ns target (X : Type) (event : Watcher -> Request)
    (cast : forall x, Answer (event x) -> Reply X) :
  (forall x, watch_free (event x) = true) ->
  released
    (bind (await (WatchCreate ns target))
          (fun watcher =>
             try_finally
               (bind (perform (event watcher))
                     (fun a => settle (cast watcher a)))
               (await (WatchCancel watcher)))).
Proof.
  intros Hfree W h w s opened.
  rewrite (exec_call_bind h (WatchCreate ns target) (fun a => a)).
  destruct (h (WatchCreate ns target) w) as [[watcher | why] w1] eqn:Hopen;
    cbn [fst snd].
  - run_simpl. rewrite exec_try_finally. run_simpl.
    lazymatch goal with
    | |- context [[?ev] ++ ?t] => change ([ev] ++ t) with (ev :: t)
    end.
    cbn [open_watches snd]. rewrite Hopen. cbn [ledger_step fst snd].
    rewrite open_watches_seq.
    rewrite (@released_call (event watcher) X (cast watcher) (Hfree watcher)).
    assert (Hcancel : forall s1 w2,
              trace (exec h (await (WatchCancel watcher)) s1 w2)
                = [(s1, WatchCancel watcher)]).
    { intros s1 w2. rewrite exec_bind, exec_perform. run_simpl.
      rewrite exec_settle.
      destruct (fst (h (WatchCancel watcher) w2)); reflexivity. }
    rewrite Hcancel. cbn [open_watches snd]. cbn [ledger_step].
    apply remove_watch_head.
  - cbn [trace open_watches snd]. rewrite Hopen. reflexivity.
Qed.

Lemma released_waitForDelete ns key : released (waitForDelete ns key).
Proof.
  apply (@released_watch_scope ns (WatchKey key) unit AwaitDeleteOrError
           (fun _ a => a)).
  reflexivity.
Qed.

Lemma released_waitForDeletes_task ns key :
  released (waitForDeletes_task ns key).
Proof.
  apply released_bind.
  - apply (@released_call (GetString ns key) (option string) (fun a => a)).
    reflexivity.
  - intros [v |]; [apply released_waitForDelete | apply released_ret].
Qed.

Lemma released_waitForDeletes_loop ns keys :
  forall key,
    released (waitForDeletes_loop (waitForDeletes_task ns key)
                (map (waitForDeletes_task ns) keys)).
Proof.
  induction keys as [| next keys IH]; intro key;
    (apply released_bind; [apply released_waitForDeletes_task |]);
    intros _; [apply released_ret | apply IH].
Qed.

Lemma released_waitForDeletes ns keys : released (waitForDeletes ns keys).
Proof.
  destruct keys as [| k1 [| k2 rest]].
  - apply released_ret.
  - apply released_waitForDelete.
  - apply (released_waitForDeletes_loop ns (k2 :: rest) k1).
Qed.

Lemma released_waitForElected el : released (waitForElected el).
Proof.
  apply released_this. intro s. apply released_bind.
  - apply (@released_call (RangeKeys (waitForElected_query el s))
             (list string) (fun a => a)).
    reflexivity.
  - intros [| k ks]; [apply released_ret | apply released_waitForDeletes].
Qed.

Lemma released_initialize el : released (initialize el).
Proof.
  apply released_this. intro s.
  destruct (lease s); [apply released_ret |].
  apply released_bind; [now apply released_perform |]. intro l.
  apply released_bind; [apply released_assign |]. intros _.
  apply released_bind; [now apply released_perform |]. intros _.
  apply released_bind; [| intro; apply released_assign].
  apply (@released_call (LeaseGrant l) string (fun a => a)). reflexivity.
Qed.

Lemma released_proclaim el value : released (proclaim el value).
Proof.
  apply released_this. intro s.
  destruct (negb (_isCampaigning s)); [apply released_throw |].
  apply released_bind.
  - apply (@released_call (TxnCommit (proclaim_txn el s value)) TxnResponse
             (fun a => a)).
    reflexivity.
  - intro r. destruct (negb (succeeded r)); [| apply released_ret].
    apply released_bind; [apply released_assign |].
    intros _. apply released_throw.
Qed.

Lemma released_resign el : released (resign el).
Proof.
  apply released_this. intro s.
  destruct (negb (isCampaigning s)); [apply released_ret |].
  apply released_bind.
  - apply (@released_call (TxnCommit (resign_txn el s)) TxnResponse
             (fun a => a)).
    reflexivity.
  - intro r. destruct (negb (succeeded r)); [| apply released_assign].
    apply released_this. intro s1.
    destruct (lease s1) as [l |]; [| apply released_ret].
    apply released_bind.
    { apply (@released_call (LeaseRevoke l) unit (fun a => a)). reflexivity. }
    intros _. apply released_bind; [now apply released_perform |]. intro l'.
    apply released_bind; [apply released_assign |]. intros _.
    apply released_bind; [now apply released_perform |]. intros _.
    apply released_bind; [apply released_assign |]. intros _.
    apply released_assign.
Qed.

Lemma released_rethrow el error : released (resign_and_rethrow el error).
Proof.
  apply released_bind; [apply released_resign |].
  intros _. apply released_throw.
Qed.

(** X7.  [campaign] leaves no watch open: in every run, against every
    store and however the run ends (elected, a failed wait, a failed
    [resign]), each watch the store created for it has had its
    cancellation requested by the time [campaign] returns or raises. *)
Theorem campaign_releases_watches el value : released (campaign el value).
Proof.
  apply released_bind; [apply released_initialize |]. intros _.
  apply released_this. intro s. apply released_bind.
  { apply (@released_call (TxnCommit (campaign_txn el s value)) TxnResponse
             (fun a => a)).
    reflexivity. }
  intro res. apply released_bind; [apply released_assign |]. intros _.
  apply released_bind.
  - destruct (negb (succeeded res)); [| apply released_ret].
    apply released_try_catch; [| apply released_rethrow].
    apply released_bind.
    + unfold existing_kv.
      destruct (responses res) as [| [[| kv kvs] | |] rest];
        (apply released_throw || apply released_ret).
    + intro kv. apply released_bind; [apply released_assign |]. intros _.
      destruct (negb (kv_value kv =? value)%string);
        [apply released_proclaim | apply released_ret].
  - intros _. apply released_try_catch;
      [apply released_waitForElected | apply released_rethrow].
Qed.

Lemma released_observe_body el : released (observe_body el).
Proof.
  apply released_try_finally; [| apply released_assign].
  apply released_bind; [apply released_assign |]. intros _.
  apply released_bind.
  { apply (@released_call (RangeKeys (leader_query el)) (list string)
             (fun a => a)).
    reflexivity. }
  intro keys. apply released_bind.
  - destruct keys as [| first rest]; [| apply released_ret].
    apply (@released_watch_scope (parent el) (WatchPrefix (getPrefix el))
             string AwaitPutOrError (fun _ a => a)).
    reflexivity.
  - intro leader. apply released_bind; [now apply released_perform |].
    intros _. apply released_waitForDelete.
Qed.

(** X8.  The observation loop leaves no watch open: after any number of
    loop bodies, successful or failed, each prefix watch and each key
    watch the store created has had its cancellation requested. *)
Theorem tryObserve_releases_watches el fuel : released (tryObserve el fuel).
Proof.
  induction fuel as [| n IH]; [apply released_ret |].
  cbn [tryObserve]. apply released_detached, released_try_catch.
  - apply released_this. intro s.
    destruct (_isObserving s); [apply released_ret |].
    apply released_bind; [apply released_observe_body |]. intros _.
    apply released_bind; [now apply released_perform |]. intro count.
    destruct (Nat.ltb 0 count); [exact IH | apply released_ret].
  - intro e. apply released_bind; [apply released_emit_error |].
    intros _. exact IH.
Qed.

Lemma campaign_releases_watches_witness :
  let w := (0, [GivesString "7"; GivesTxn (txn_response "5" true);
                GivesKeys ["3"]; Settles; Fails "watch error"; Settles;
                GivesTxn (txn_response "6" true)]) in
  let out := exec scripted (campaign svc "A") new_session w in
  result out = Raise (StoreFailure "watch error") /\
  snd (open_watches scripted w [] (firstn 6 (trace out))) = [WatcherObj 1] /\
  snd (open_watches scripted w [] (trace out)) = [].
Proof.
  intros w out.
  split; [reflexivity |]. split; [reflexivity |].
  apply (@campaign_releases_watches svc "A" Script scripted w new_session []).
Defined.

Lemma tryObserve_releases_watches_witness :
  let w := (0, [GivesKeys []; Settles; Fails "watch error"; Settles]) in
  let out := exec scripted (tryObserve svc 1) new_session w in
  map snd (trace out)
    = [RangeKeys (leader_query svc);
       WatchCreate RootNamespace (WatchPrefix "election/svc/");
       AwaitPutOrError (WatcherObj 0);
       WatchCancel (WatcherObj 0);
       EmitError (StoreFailure "watch error")] /\
  snd (open_watches scripted w [] (trace out)) = [].
Proof.
  intros w out. split; [reflexivity |].
  apply (@tryObserve_releases_watches svc 1 Script scripted w new_session []).
Defined.

(** ** [initialize] *)

(** X1.  [initialize] runs once: after any run of it, whether the grant
    resolved or rejected, a lease reference is held, and a further
    [initialize] makes no call and leaves the session as it is; on a
    session that already holds a lease reference it does nothing. *)
Theorem initialize_once W (h : Handler W) el s w :
  lease (final (exec h (initialize el) s w)) <> None /\
  (forall W' (h' : Handler W') w',
     exec h' (initialize el) (final (exec h (initialize el) s w)) w'
       = mkRun (final (exec h (initialize el) s w)) (Ok tt) w' []) /\
  (lease s <> None -> exec h (initialize el) s w = mkRun s (Ok tt) w []).
Proof.
  assert (Hheld : lease (final (exec h (initialize el) s w)) <> None).
  { rewrite exec_initialize.
    destruct (lease s) eqn:Hl; [cbn; congruence |]. cbv zeta.
    destruct (fst (h (LeaseGrant _) _)); discriminate. }
  split; [exact Hheld |]. split.
  - intros W' h' w'. rewrite (exec_initialize h').
    destruct (lease (final (exec h (initialize el) s w)));
      [reflexivity | contradiction].
  - intro Hs. rewrite exec_initialize.
    destruct (lease s); [reflexivity | contradiction].
Qed.

Lemma initialize_once_witness :
  let out := exec scripted (initialize svc) new_session (0, [Fails "no grant"]) in
  result out = Raise (StoreFailure "no grant") /\
  exec scripted (initialize svc) (final out) (1, [GivesString "7"])
    = mkRun (final out) (Ok tt) (1, [GivesString "7"]) [].
Proof.
  intro out. split; [reflexivity |].
  destruct (initialize_once scripted svc new_session (0, [Fails "no grant"]))
    as [_ [Hnoop _]].
  apply Hnoop.
Defined.

(** X2.  When the grant of a first [initialize] rejects, [initialize]
    raises the store's error with the lease reference already set and
    [leaseId] still empty, so the session is not ready; a later
    [campaign] does not ask for a grant either: its first call is its
    transaction, made on the empty key under the empty lease id. *)
Theorem initialize_failed_grant W (h : Handler W) el s w why :
  lease s = None ->
  leaseId s = "" ->
  let fresh := h (NewLease (namespace el) (ttl el)) w in
  let listen := h (LeaseOnLost (fst fresh)) (snd fresh) in
  fst (h (LeaseGrant (fst fresh)) (snd listen)) = Rejected why ->
  let out := exec h (initialize el) s w in
  result out = Raise (StoreFailure why) /\
  final out = set_lease (Some (fst fresh)) s /\
  isReady (final out) = false /\
  forall value W' (h' : Handler W') w',
    exists rest,
      trace (exec h' (campaign el value) (final out) w')
        = (final out, TxnCommit (campaign_txn el (final out) value)) :: rest /\
      txn_if (campaign_txn el (final out) value)
        = mkCompare "" "Create" "==" (CmpNumber 0) /\
      txn_then (campaign_txn el (final out) value) = [OpPut "" value ""].
Proof.
  intros Hl Hid fresh listen Hgrant. cbv zeta.
  rewrite exec_initialize, Hl. cbv zeta.
  fold fresh. fold listen. rewrite Hgrant. cbn [result final].
  split; [reflexivity |]. split; [reflexivity |].
  split; [unfold isReady; cbn; now rewrite Hid |].
  intros value W' h' w'.
  set (s1 := set_lease (Some (fst fresh)) s).
  assert (Hid1 : leaseId s1 = "") by exact Hid.
  split with
    (trace (exec h'
              (bind (settle (fst (h' (TxnCommit (campaign_txn el s1 value)) w')))
                    (fun res => campaign_after_commit el value res))
              s1 (snd (h' (TxnCommit (campaign_txn el s1 value)) w')))).
  split; [| unfold campaign_txn; rewrite Hid1; split; reflexivity].
  unfold campaign. rewrite exec_bind, exec_initialize.
  cbn [lease s1 set_lease result final world trace].
  rewrite prepend_nil, exec_this_bind.
  rewrite (exec_call_bind h' (TxnCommit (campaign_txn el s1 value))
             (fun a => a)).
  rewrite exec_bind, exec_settle.
  destruct (fst (h' (TxnCommit (campaign_txn el s1 value)) w'));
    reflexivity.
Qed.

Lemma initialize_failed_grant_witness :
  let out := exec scripted (initialize svc) new_session (0, [Fails "no grant"]) in
  result out = Raise (StoreFailure "no grant") /\
  final out = set_lease (Some (LeaseObj 0)) new_session /\
  isReady (final out) = false.
Proof.
  destruct (@initialize_failed_grant Script scripted svc new_session
              (0, [Fails "no grant"]) "no grant" eq_refl eq_refl eq_refl)
    as [Hr [Hf [Hready _]]].
  auto.
Defined.

(** ** After [resign] *)

(** X5.  [resign] on a session that is not campaigning makes no call and
    changes nothing.  Hence, once a [resign] has cleared the candidacy,
    a second [resign] is a no-op and a [proclaim] raises [NotLeaderError]
    at once; neither contacts the store. *)
Theorem resign_then_idle W (h : Handler W) el s w :
  (isCampaigning s = false ->
     exec h (resign el) s w = mkRun s (Ok tt) w []) /\
  (isCampaigning s = true ->
   resign_goes_through h el s w = true ->
   forall value W' (h' : Handler W') w',
     exec h' (resign el) (final (exec h (resign el) s w)) w'
       = mkRun (final (exec h (resign el) s w)) (Ok tt) w' [] /\
     exec h' (proclaim el value) (final (exec h (resign el) s w)) w'
       = mkRun (final (exec h (resign el) s w))
               (Raise EtcdNotLeaderError) w' []).
Proof.
  split.
  - intro Hc. now rewrite exec_resign, Hc.
  - intros Hc Hthrough value W' h' w'.
    destruct (resign_outcome h el s w Hc Hthrough) as [_ [_ [_ Hidle]]].
    rewrite (exec_resign h'), (exec_proclaim h'), Hidle. split; reflexivity.
Qed.

Lemma resign_then_idle_witness :
  let out := exec scripted (resign svc) elected_session
               (1, [GivesTxn (txn_response "9" true)]) in
  final out = mkSession (Some (LeaseObj 0)) "7" "" "" false false /\
  exec scripted (resign svc) (final out) (1, [Fails "unused"])
    = mkRun (final out) (Ok tt) (1, [Fails "unused"]) [] /\
  exec scripted (proclaim svc "B") (final out) (1, [Fails "unused"])
    = mkRun (final out) (Raise EtcdNotLeaderError) (1, [Fails "unused"]) [].
Proof.
  intro out. split; [reflexivity |].
  destruct (resign_then_idle scripted svc elected_session
              (1, [GivesTxn (txn_response "9" true)])) as [_ Hidle].
  apply (Hidle eq_refl eq_refl "B" Script scripted (1, [Fails "unused"])).
Defined.

(** ** [getLeader] and the session's own key *)

Lemma append_cancel (p a b : string) :
  (p ++ a)%string = (p ++ b)%string -> a = b.
Proof.
  induction p as [| c p IH]; simpl; [auto |].
  intros [= H]. auto.
Qed.

(** X6.  For a session whose [leaderKey] is its candidate key (the
    election prefix followed by [leaseId], as [campaign] records it),
    [getLeader] returns that [leaderKey] exactly when the first key of
    the ascending read is the session's [leaseId]. *)
Theorem getLeader_is_own_key W (h : Handler W) el s w first rest :
  leaderKey s = (getPrefix el ++ leaseId s)%string ->
  fst (h (RangeKeys (leader_query el)) w) = Resolved (first :: rest) ->
  (result (exec h (getLeader el) s w) = Ok (leaderKey s) <->
   first = leaseId s).
Proof.
  intros Hkey Hread.
  assert (Hrun : result (exec h (getLeader el) s w)
                 = Ok (getPrefix el ++ first)%string).
  { unfold getLeader.
    rewrite (exec_call_bind h (RangeKeys (leader_query el)) (fun a => a)).
    rewrite Hread. reflexivity. }
  rewrite Hrun, Hkey. split.
  - intros [= H]. now apply append_cancel in H.
  - now intros ->.
Qed.

Lemma getLeader_is_own_key_witness :
  result (exec scripted (getLeader svc) elected_session
               (1, [GivesKeys ["7"; "9"]])) = Ok "election/svc/7" /\
  result (exec scripted (getLeader svc) elected_session
               (1, [GivesKeys ["3"; "7"]])) <> Ok "election/svc/7".
Proof.
  split.
  - apply (@getLeader_is_own_key Script scripted svc elected_session
             (1, [GivesKeys ["7"; "9"]]) "7" ["9"] eq_refl eq_refl).
    reflexivity.
  - intro H.
    apply (@getLeader_is_own_key Script scripted svc elected_session
             (1, [GivesKeys ["3"; "7"]]) "3" ["7"] eq_refl eq_refl) in H.
    discriminate H.
Defined.

(** ** Recovery from a lost lease *)

(** X13.  The lease-lost handler never raises.  When the grant of its
    re-initialization rejects, it reports the store's error with one
    [error] notification and leaves the session holding the new lease
    object with an empty [leaseId]: the session is not ready, and a
    further [initialize] makes no call. *)
Theorem onLeaseLost_failed_recovery W (h : Handler W) el s w :
  result (exec h (onLeaseLost el) s w) = Ok tt /\
  forall l why,
    lease s = Some l ->
    let drop := h (LeaseRemoveAllListeners l) w in
    let fresh := h (NewLease (namespace el) (ttl el)) (snd drop) in
    let listen := h (LeaseOnLost (fst fresh)) (snd fresh) in
    fst (h (LeaseGrant (fst fresh)) (snd listen)) = Rejected why ->
    let out := exec h (onLeaseLost el) s w in
    final out = set_lease (Some (fst fresh)) (set_leaseId "" s) /\
    isReady (final out) = false /\
    map snd (trace out)
      = [LeaseRemoveAllListeners l;
         NewLease (namespace el) (ttl el);
         LeaseOnLost (fst fresh);
         LeaseGrant (fst fresh);
         EmitError (StoreFailure why)] /\
    forall W' (h' : Handler W') w',
      exec h' (initialize el) (final out) w' = mkRun (final out) (Ok tt) w' [].
Proof.
  split.
  - rewrite exec_onLeaseLost. cbv zeta.
    destruct (result (exec h (initialize el) _ _)); reflexivity.
  - intros l why Hl drop fresh listen Hgrant. cbv zeta.
    rewrite exec_onLeaseLost, exec_discard_lease, Hl. cbv zeta.
    cbn [final world trace]. rewrite exec_initialize.
    cbn [lease set_lease set_leaseId]. cbv zeta.
    fold drop. fold fresh. fold listen. rewrite Hgrant.
    cbn [result final trace].
    split; [reflexivity |]. split; [reflexivity |]. split; [reflexivity |].
    intros W' h' w'. rewrite (exec_initialize h'). reflexivity.
Qed.

Lemma onLeaseLost_failed_recovery_witness :
  let out := exec scripted (onLeaseLost svc) elected_session
               (1, [Fails "no grant"]) in
  final out
    = mkSession (Some (LeaseObj 1)) "" "election/svc/7" "5" true false /\
  isReady (final out) = false.
Proof.
  destruct (onLeaseLost_failed_recovery scripted svc elected_session
              (1, [Fails "no grant"])) as [_ Hfail].
  destruct (Hfail (LeaseObj 0) "no grant" eq_refl eq_refl)
    as [Hf [Hready _]].
  split; [exact Hf | exact Hready].
Defined.

(** ** A [campaign] that returns *)

Lemma else_branch_returns W (h : Handler W) el value res s w :
  result (exec h (campaign_else_branch el value res) s w) = Ok tt ->
  exists kv kvs more,
    responses res = response_range (kv :: kvs) :: more /\
    final (exec h (campaign_else_branch el value res) s w)
      = set_leaderRevision (create_revision kv) s.
Proof.
  unfold campaign_else_branch, existing_kv.
  rewrite exec_bind.
  destruct (responses res) as [| [[| kv kvs] | |] more];
    try (rewrite exec_throw; discriminate).
  rewrite exec_ret. run_simpl.
  rewrite exec_bind, exec_assign. run_simpl.
  destruct (negb (kv_value kv =? value)%string).
  - rewrite exec_proclaim. cbv zeta.
    destruct (isCampaigning _);
      [destruct (fst (h (TxnCommit _) _)) as [r | why];
       [destruct (succeeded r) |] |];
      cbn [result final]; intro H; try discriminate H.
    exists kv, kvs, more. split; reflexivity.
  - rewrite exec_ret. intros _. exists kv, kvs, more. split; reflexivity.
Qed.

Lemma guarded_returns W (h : Handler W) el (phase : M unit) s w :
  result (exec h (try_catch phase (resign_and_rethrow el)) s w) = Ok tt ->
  exec h (try_catch phase (resign_and_rethrow el)) s w = exec h phase s w /\
  result (exec h phase s w) = Ok tt.
Proof.
  rewrite exec_guarded.
  destruct (result (exec h phase s w)) as [[] | e0] eqn:Hphase.
  - intros _. split; reflexivity.
  - cbv zeta. cbn [result].
    destruct (result (exec h (resign el) _ _)); discriminate.
Qed.

Lemma after_commit_returns W (h : Handler W) el value res s w :
  result (exec h (campaign_after_commit el value res) s w) = Ok tt ->
  let s1 := set_isCampaigning true
              (set_leaderRevision (header_revision res)
                 (set_leaderKey (getPrefix el ++ leaseId s)%string s)) in
  (succeeded res = true /\
   final (exec h (campaign_after_commit el value res) s w) = s1) \/
  (succeeded res = false /\
   exists kv kvs more,
     responses res = response_range (kv :: kvs) :: more /\
     final (exec h (campaign_after_commit el value res) s w)
       = set_leaderRevision (create_revision kv) s1).
Proof.
  intros Hout s1. unfold campaign_after_commit in Hout |- *.
  rewrite exec_bind, exec_assign in Hout |- *.
  cbn [result final world trace] in Hout |- *.
  rewrite prepend_nil in Hout |- *. fold s1 in Hout |- *.
  rewrite exec_bind in Hout |- *.
  destruct (succeeded res); cbn [negb] in Hout |- *.
  - left. split; [reflexivity |].
    rewrite exec_ret in Hout |- *.
    cbn [result final world trace] in Hout |- *.
    rewrite prepend_nil in Hout |- *.
    destruct (guarded_returns h el _ s1 w Hout) as [-> _].
    apply final_waitForElected.
  - right. split; [reflexivity |].
    destruct (result (exec h (try_catch (campaign_else_branch el value res)
                                (resign_and_rethrow el)) s1 w))
      as [[] | e] eqn:Hmid; [| discriminate Hout].
    destruct (guarded_returns h el _ s1 w Hmid) as [Heq Helse].
    destruct (else_branch_returns h el value res s1 w Helse)
      as (kv & kvs & more & Hresp & Hfinal).
    exists kv, kvs, more. split; [exact Hresp |].
    run_simpl in Hout. run_simpl.
    destruct (guarded_returns h el _ _ _ Hout) as [-> _].
    rewrite final_waitForElected, Heq. exact Hfinal.
Qed.

(** X3.  A [campaign] that returns leaves the session campaigning, under
    the lease acquired by [initialize], with [leaderKey] the election
    prefix followed by [leaseId].  Its transaction has resolved, and
    [leaderRevision] is the revision of the transaction's header when the
    create branch ran, and the creation revision of the existing key when
    the else branch ran.  [isObserving] is untouched. *)
Theorem campaign_elected W (h : Handler W) el value s w :
  result (exec h (campaign el value) s w) = Ok tt ->
  let init := exec h (initialize el) s w in
  let out := exec h (campaign el value) s w in
  exists res rev,
    result init = Ok tt /\
    fst (h (TxnCommit (campaign_txn el (final init) value)) (world init))
      = Resolved res /\
    lease (final init) <> None /\
    final out
      = mkSession (lease (final init)) (leaseId (final init))
                  (getPrefix el ++ leaseId (final init))%string rev true
                  (_isObserving s) /\
    (succeeded res = true -> rev = header_revision res) /\
    (succeeded res = false ->
       exists kv kvs more,
         responses res = response_range (kv :: kvs) :: more /\
         rev = create_revision kv).
Proof.
  intro Hout. cbv zeta.
  assert (Hobs : _isObserving (final (exec h (initialize el) s w))
                 = _isObserving s).
  { rewrite exec_initialize. destruct (lease s); [reflexivity |].
    cbv zeta. destruct (fst (h (LeaseGrant _) _)); reflexivity. }
  assert (Hheld : lease (final (exec h (initialize el) s w)) <> None).
  { rewrite exec_initialize.
    destruct (lease s) eqn:Hl; [cbn; congruence |]. cbv zeta.
    destruct (fst (h (LeaseGrant _) _)); discriminate. }
  unfold campaign in Hout |- *. rewrite exec_bind in Hout |- *.
  destruct (result (exec h (initialize el) s w)) as [[] | e];
    [| discriminate Hout].
  rewrite exec_this_bind in Hout |- *.
  rewrite (exec_call_bind h (TxnCommit _) (fun a => a)) in Hout |- *.
  destruct (fst (h (TxnCommit _) _)) as [res | why]; [| discriminate Hout].
  run_simpl in Hout. run_simpl. rewrite <- Hobs.
  destruct (after_commit_returns h el value res _ _ Hout)
    as [[Hs Hfinal] | [Hs (kv & kvs & more & Hresp & Hfinal)]];
    rewrite Hfinal.
  - exists res, (header_revision res).
    split; [reflexivity |]. split; [reflexivity |]. split; [exact Hheld |].
    split; [reflexivity |]. split; [reflexivity |]. intro H. congruence.
  - exists res, (create_revision kv).
    split; [reflexivity |]. split; [reflexivity |]. split; [exact Hheld |].
    split; [reflexivity |]. split; [intro H; congruence |]. intros _.
    exists kv, kvs, more. split; [exact Hresp | reflexivity].
Qed.

Lemma campaign_elected_witness :
  let w := (0, [GivesString "7";
                GivesTxn (mkTxnResponse "9" false
                            [response_range [mkKeyValue "7" "5" "A"]]);
                GivesKeys []]) in
  result (exec scripted (campaign svc "A") new_session w) = Ok tt /\
  final (exec scripted (campaign svc "A") new_session w) = elected_session.
Proof.
  intro w.
  assert (Hok : result (exec scripted (campaign svc "A") new_session w) = Ok tt)
    by reflexivity.
  split; [exact Hok |].
  destruct (campaign_elected scripted svc "A" new_session w Hok)
    as (res & rev & _ & _ & _ & Hfinal & _).
  reflexivity.
Defined.

(** X4.  When the transaction of [campaign] finds the candidate key
    already there, [campaign] takes the creation revision of the existing
    key as [leaderRevision].  If the stored value is the value campaigned
    with, nothing is written: [campaign] goes straight to the wait for
    its turn.  Otherwise its next call is the transaction of [proclaim],
    which checks the key against that creation revision. *)
Theorem campaign_existing_key W (h : Handler W) el value res kv kvs more s w :
  succeeded res = false ->
  responses res = response_range (kv :: kvs) :: more ->
  let s2 := mkSession (lease s) (leaseId s)
                      (getPrefix el ++ leaseId s)%string
                      (create_revision kv) true (_isObserving s) in
  (kv_value kv = value ->
     exec h (campaign_after_commit el value res) s w
       = exec h (try_catch (waitForElected el) (resign_and_rethrow el)) s2 w) /\
  (kv_value kv <> value ->
     exists rest,
       trace (exec h (campaign_after_commit el value res) s w)
         = (s2, TxnCommit (proclaim_txn el s2 value)) :: rest /\
       txn_if (proclaim_txn el s2 value)
         = mkCompare (leaseId s) "Create" "==" (CmpString (create_revision kv))).
Proof.
  intros Hs Hresp s2.
  assert (Helse : exec h (campaign_else_branch el value res)
                    (set_isCampaigning true
                       (set_leaderRevision (header_revision res)
                          (set_leaderKey (getPrefix el ++ leaseId s)%string s)))
                    w
                  = exec h (if negb (kv_value kv =? value)%string
                            then proclaim el value else ret tt) s2 w).
  { unfold campaign_else_branch, existing_kv. rewrite Hresp.
    rewrite exec_bind, exec_ret. cbn [result final world trace].
    rewrite prepend_nil, exec_bind, exec_assign.
    cbn [result final world trace]. now rewrite prepend_nil. }
  assert (Hrun : exec h (campaign_after_commit el value res) s w
                 = exec h
                     (bind (try_catch
                              (if negb (kv_value kv =? value)%string
                               then proclaim el value else ret tt)
                              (resign_and_rethrow el))
                           (fun _ => try_catch (waitForElected el)
                                               (resign_and_rethrow el)))
                     s2 w).
  { unfold campaign_after_commit. rewrite exec_bind, exec_assign.
    cbn [result final world trace]. rewrite prepend_nil, Hs. cbn [negb].
    rewrite !exec_bind, !exec_guarded, Helse. reflexivity. }
  rewrite Hrun. split.
  - intro Hsame. apply String.eqb_eq in Hsame. rewrite Hsame. cbn [negb].
    rewrite exec_bind, exec_guarded, exec_ret.
    cbn [result final world trace]. apply prepend_nil.
  - intro Hother. apply String.eqb_neq in Hother. rewrite Hother. cbn [negb].
    split with
      (tl (trace (exec h
                    (bind (try_catch (proclaim el value) (resign_and_rethrow el))
                          (fun _ => try_catch (waitForElected el)
                                              (resign_and_rethrow el)))
                    s2 w))).
    split; [| reflexivity].
    rewrite exec_bind, exec_guarded, exec_proclaim. cbv zeta.
    change (isCampaigning s2) with true. cbv iota.
    destruct (fst (h (TxnCommit (proclaim_txn el s2 value)) w)) as [r | why];
      [destruct (succeeded r) |]; cbn [result final world trace];
      try (destruct (result (exec h (resign el) _ _)));
      reflexivity.
Qed.

Lemma campaign_existing_key_witness :
  let res := mkTxnResponse "9" false
               [response_range [mkKeyValue "7" "5" "B"]] in
  let ready := mkSession (Some (LeaseObj 0)) "7" "" "" false false in
  map snd (trace (exec scripted (campaign_after_commit svc "B" res) ready
                       (1, [GivesKeys []])))
    = [RangeKeys (waitForElected_query svc elected_session)] /\
  exists rest,
    trace (exec scripted (campaign_after_commit svc "A" res) ready
                (1, [GivesTxn (txn_response "10" true); GivesKeys []]))
      = (elected_session, TxnCommit (proclaim_txn svc elected_session "A"))
          :: rest.
Proof.
  intros res ready.
  destruct (@campaign_existing_key Script scripted svc "B" res
              (mkKeyValue "7" "5" "B") [] [] ready (1, [GivesKeys []])
              eq_refl eq_refl) as [Hsame _].
  destruct (@campaign_existing_key Script scripted svc "A" res
              (mkKeyValue "7" "5" "B") [] [] ready
              (1, [GivesTxn (txn_response "10" true); GivesKeys []])
              eq_refl eq_refl) as [_ Hother].
  split.
  - rewrite (Hsame eq_refl). reflexivity.
  - destruct (Hother ltac:(discriminate)) as [rest [Htrace _]].
    exists rest. exact Htrace.
Defined.

(** ** What the observer reports *)

Lemma anywhere_under (P : Session -> Prop) s r :
  P s -> outside_body r = false -> anywhere (s, r).
Proof. intros; exact I. Qed.

Lemma observe_body_frame el s0 :
  triple (fun s => s = s0) (observe_body el) anywhere
         (fun _ s => s = set_isObserving false s0).
Proof.
  unfold observe_body.
  set (P := fun s => set_isObserving false s = set_isObserving false s0).
  apply triple_try_finally with (Q1 := fun _ s => P s).
  - apply triple_bind with (Q1 := fun _ s => P s); auto.
    { apply triple_assign. intros s ->. reflexivity. }
    intros _. apply triple_bind with (Q1 := fun _ s => P s); auto.
    { apply (@triple_call _ _ (@anywhere_under P)
               (RangeKeys (leader_query el)) (list string)
               (fun a => a) eq_refl). }
    intros keys. apply triple_bind with (Q1 := fun _ s => P s); auto.
    { destruct keys as [| first rest]; [| now apply triple_ret].
      apply triple_bind with (Q1 := fun _ s => P s); auto.
      - apply (@triple_call _ _ (@anywhere_under P)
                 (WatchCreate (parent el) (WatchPrefix (getPrefix el)))
                 Watcher (fun a => a) eq_refl).
      - intro watcher.
        apply (@triple_watch_scope _ _ (@anywhere_under P) string watcher
                 (AwaitPutOrError watcher) (fun a => a) eq_refl). }
    intros leader. apply triple_bind with (Q1 := fun _ s => P s); auto.
    { apply triple_perform; [intros; exact I | auto]. }
    intros _. apply (@triple_waitForDelete _ _ (@anywhere_under P)).
  - intros r. apply triple_assign. intros s HP.
    destruct r; exact HP.
Qed.

Lemma exec_observe_body W (h : Handler W) el s w :
  exec h (observe_body el) s w =
  let body :=
    exec h
      (bind (await (RangeKeys (leader_query el)))
         (fun keys =>
            bind
              match keys with
              | [] =>
                  bind (await (WatchCreate (parent el)
                                 (WatchPrefix (getPrefix el))))
                       (fun watcher =>
                          try_finally (await (AwaitPutOrError watcher))
                                      (await (WatchCancel watcher)))
              | first :: _ => ret (getPrefix el ++ first)%string
              end
              (fun leader =>
                 bind (perform (EmitLeader leader))
                      (fun _ => waitForDelete (parent el) leader))))
      (set_isObserving true s) w in
  mkRun (set_isObserving false (final body)) (result body) (world body)
        (trace body).
Proof.
  unfold observe_body. rewrite exec_try_finally. cbv zeta.
  rewrite exec_bind, exec_assign. cbn [result final world trace].
  rewrite prepend_nil, exec_assign. cbn [result final world trace].
  now rewrite app_nil_r.
Qed.

(** X9.  One loop body of [observe] reports one leader and then waits
    for the deletion of the very key it reported.  When the ascending
    read returns keys, the key reported is the election prefix followed
    by the first of them, which is what [getLeader] returns on the same
    answer.  When the read returns none and the prefix watch is opened,
    the key reported is the key of the first put; if waiting for the put
    fails, the prefix watch is cancelled, nothing is reported and the
    body raises.  In every run, also when the read or the creation of
    the prefix watch rejects, the body ends with [isObserving] false and
    the other fields as they were. *)
Theorem observe_body_reports W (h : Handler W) el s w :
  let s1 := set_isObserving true s in
  let read := h (RangeKeys (leader_query el)) w in
  (forall first rest,
     fst read = Resolved (first :: rest) ->
     let key := (getPrefix el ++ first)%string in
     let wait := exec h (waitForDelete (parent el) key) s1
                      (snd (h (EmitLeader key) (snd read))) in
     result (exec h (getLeader el) s w) = Ok key /\
     exec h (observe_body el) s w
       = mkRun (set_isObserving false s) (result wait) (world wait)
               ((s1, RangeKeys (leader_query el))
                  :: (s1, EmitLeader key) :: trace wait)) /\
  (forall watcher,
     fst read = Resolved [] ->
     let target := WatchCreate (parent el) (WatchPrefix (getPrefix el)) in
     fst (h target (snd read)) = Resolved watcher ->
     let put := h (AwaitPutOrError watcher) (snd (h target (snd read))) in
     let cancel := h (WatchCancel watcher) (snd put) in
     let opened := [(s1, RangeKeys (leader_query el)); (s1, target);
                    (s1, AwaitPutOrError watcher);
                    (s1, WatchCancel watcher)] in
     exec h (observe_body el) s w =
     match fst cancel, fst put with
     | Resolved _, Resolved key =>
         let wait := exec h (waitForDelete (parent el) key) s1
                          (snd (h (EmitLeader key) (snd cancel))) in
         mkRun (set_isObserving false s) (result wait) (world wait)
               (opened ++ (s1, EmitLeader key) :: trace wait)
     | Resolved _, Rejected why =>
         mkRun (set_isObserving false s) (Raise (StoreFailure why))
               (snd cancel) opened
     | Rejected why, _ =>
         mkRun (set_isObserving false s) (Raise (StoreFailure why))
               (snd cancel) opened
     end) /\
  final (exec h (observe_body el) s w) = set_isObserving false s.
Proof.
  cbv zeta. split; [| split].
  3: apply (proj2 (@observe_body_frame el s W h w s eq_refl)).
  - intros first rest Hread. split.
    + unfold getLeader.
      rewrite (exec_call_bind h (RangeKeys (leader_query el)) (fun a => a)).
      rewrite Hread. reflexivity.
    + rewrite exec_observe_body. cbv zeta.
      rewrite (exec_call_bind h (RangeKeys (leader_query el)) (fun a => a)).
      rewrite Hread. rewrite exec_bind, exec_ret.
      cbn [result final world trace]. rewrite prepend_nil.
      rewrite exec_bind, exec_perform. cbn [result final world trace].
      run_simpl. now rewrite final_waitForDelete.
  - intros watcher Hread Hopen.
    rewrite exec_observe_body. cbv zeta.
    rewrite (exec_call_bind h (RangeKeys (leader_query el)) (fun a => a)).
    rewrite Hread. rewrite exec_bind.
    rewrite (exec_call_bind h (WatchCreate (parent el)
                                 (WatchPrefix (getPrefix el))) (fun a => a)).
    rewrite Hopen. rewrite exec_try_finally. cbv zeta.
    rewrite !exec_bind, !exec_perform. cbn [result final world trace].
    rewrite !exec_settle. run_simpl.
    destruct (fst (h (AwaitPutOrError watcher) _)) as [key | why];
      destruct (fst (h (WatchCancel watcher) _)) as [[] | why'];
      run_simpl; try reflexivity.
    rewrite exec_bind, exec_perform. run_simpl.
    now rewrite final_waitForDelete.
Qed.

Lemma observe_body_reports_witness :
  let out := exec scripted (observe_body svc) new_session
               (0, [GivesKeys ["7"; "9"]; Settles; Settles; Settles]) in
  map snd (trace out)
    = [RangeKeys (leader_query svc);
       EmitLeader "election/svc/7";
       WatchCreate RootNamespace (WatchKey "election/svc/7");
       AwaitDeleteOrError (WatcherObj 0);
       WatchCancel (WatcherObj 0)] /\
  final out = new_session.
Proof.
  intro out.
  destruct (observe_body_reports scripted svc new_session
              (0, [GivesKeys ["7"; "9"]; Settles; Settles; Settles]))
    as [Hkeys _].
  destruct (Hkeys "7" ["9"] eq_refl) as [_ Hrun].
  unfold out. rewrite Hrun. split; reflexivity.
Defined.

(** ** What the observer leaves untouched *)

Lemma tryObserve_frame el fuel :
  forall s0,
    triple (fun s => s = s0) (tryObserve el fuel) anywhere
           (fun r s => r = Ok tt /\ s = s0).
Proof.
  induction fuel as [| n IH]; intro s0;
    [apply triple_ret; now intros s -> |].
  cbn [tryObserve].
  apply triple_detached with (Q1 := fun _ s => s = s0); [| auto].
  apply triple_try_catch with (Q1 := fun _ s => s = s0); auto.
  - unfold observe. apply triple_this. intros s1 Heq. subst s1.
    destruct (_isObserving s0) eqn:Hflag; [now apply triple_ret |].
    assert (Hs0 : set_isObserving false s0 = s0)
      by (destruct s0; cbn in Hflag; now subst).
    apply triple_bind with (Q1 := fun _ s => s = s0); auto.
    { eapply triple_weaken; [apply (@observe_body_frame el s0) | auto |].
      intros r s ->. exact Hs0. }
    intros _. apply triple_bind with (Q1 := fun _ s => s = s0); auto.
    { apply triple_perform; [intros; exact I | auto]. }
    intros count. destruct (Nat.ltb 0 count); [| now apply triple_ret].
    eapply triple_weaken; [apply (IH s0) | auto |]. now intros r s [_ ->].
  - intro e. apply triple_bind with (Q1 := fun _ s => s = s0); auto.
    { apply triple_emit_error; [intros; exact I | auto]. }
    intros _. eapply triple_weaken; [apply (IH s0) | auto |].
    now intros r s [_ ->].
Qed.

Lemma tryObserve_result_and_final W (h : Handler W) el fuel s w :
  result (exec h (tryObserve el fuel) s w) = Ok tt /\
  final (exec h (tryObserve el fuel) s w) = s.
Proof. apply (@tryObserve_frame el fuel s W h w s eq_refl). Qed.

(** X10.  [tryObserve] never raises and leaves the session as it found
    it: the observation loop touches no field but [isObserving], and
    every loop body puts that flag back before the loop goes on or
    stops.  On running out of listeners, on errors, after any number of
    restarts, the lease, the lease id and the candidacy are those the
    session had. *)
Theorem tryObserve_leaves_session W (h : Handler W) el fuel s w :
  result (exec h (tryObserve el fuel) s w) = Ok tt /\
  final (exec h (tryObserve el fuel) s w) = s.
Proof.
  destruct (@tryObserve_frame el fuel s W h w s eq_refl) as [_ [Hr Hs]].
  split; assumption.
Qed.

Lemma exec_observe W (h : Handler W) el (restart : M unit) s w :
  isObserving s = false ->
  exec h (observe el restart) s w =
  let body := exec h (observe_body el) s w in
  match result body with
  | Ok _ =>
      let count := h ListenerCountLeader (world body) in
      prepend (trace body ++ [(final body, ListenerCountLeader)])
              (if Nat.ltb 0 (fst count)
               then exec h restart (final body) (snd count)
               else mkRun (final body) (Ok tt) (snd count) [])
  | Raise e => mkRun (final body) (Raise e) (world body) (trace body)
  end.
Proof.
  intro Hflag. unfold observe. rewrite exec_this_bind.
  unfold isObserving in Hflag. rewrite Hflag. rewrite exec_bind. cbv zeta.
  destruct (result (exec h (observe_body el) s w)) as [[] | e];
    [| reflexivity].
  rewrite exec_bind, exec_perform. cbn [result final world trace].
  destruct (Nat.ltb 0 (fst (h ListenerCountLeader _)));
    [| rewrite exec_ret]; run_simpl; now rewrite <- app_assoc.
Qed.

(** X11.  How the loop restarts.  After a loop body that returned, the
    listener count is read: with a listener left the loop runs again,
    with none it stops and makes no further call.  After a loop body
    that raised, the error is emitted once, and the listener count is not
    read: if the emitter returns, the loop runs again; if it throws (no
    ['error'] listener is registered), the loop stops there and makes no
    further call. *)
Theorem tryObserve_restart W (h : Handler W) el n s w :
  isObserving s = false ->
  let body := exec h (observe_body el) s w in
  exec h (tryObserve el (S n)) s w =
  match result body with
  | Ok _ =>
      let count := h ListenerCountLeader (world body) in
      if Nat.ltb 0 (fst count)
      then prepend (trace body ++ [(final body, ListenerCountLeader)])
                   (exec h (tryObserve el n) (final body) (snd count))
      else mkRun (final body) (Ok tt) (snd count)
                 (trace body ++ [(final body, ListenerCountLeader)])
  | Raise e =>
      let emitted := h (EmitError e) (world body) in
      match fst emitted with
      | Resolved _ =>
          prepend (trace body ++ [(final body, EmitError e)])
                  (exec h (tryObserve el n) (final body) (snd emitted))
      | Rejected _ =>
          mkRun (final body) (Ok tt) (snd emitted)
                (trace body ++ [(final body, EmitError e)])
      end
  end.
Proof.
  intros Hflag. cbv zeta. cbn [tryObserve].
  rewrite exec_detached, exec_try_catch, (exec_observe h el _ s w Hflag).
  cbv zeta.
  destruct (result (exec h (observe_body el) s w)) as [[] | e].
  - destruct (Nat.ltb 0 (fst (h ListenerCountLeader _))).
    + run_simpl.
      rewrite (proj1 (tryObserve_result_and_final h el n _ _)).
      reflexivity.
    + run_simpl. now rewrite app_nil_r.
  - cbn [result final world trace]. rewrite exec_bind, exec_emit_error.
    cbn [result final world trace].
    destruct (fst (h (EmitError e) _)) as [u | why]; run_simpl;
      [| reflexivity].
    rewrite (proj1 (tryObserve_result_and_final h el n _ _)).
    now rewrite <- app_assoc.
Qed.

Lemma tryObserve_restart_witness :
  let w := (0, [Fails "range read failed"; GivesKeys ["7"]; Settles; Settles;
                Settles; GivesCount 0]) in
  let w' := (0, [Fails "range read failed"; EmitThrows; GivesKeys ["7"]]) in
  isObserving new_session = false /\
  map snd (trace (exec scripted (tryObserve svc 5) new_session w))
    = [RangeKeys (leader_query svc);
       EmitError (StoreFailure "range read failed");
       RangeKeys (leader_query svc);
       EmitLeader "election/svc/7";
       WatchCreate RootNamespace (WatchKey "election/svc/7");
       AwaitDeleteOrError (WatcherObj 0);
       WatchCancel (WatcherObj 0);
       ListenerCountLeader] /\
  map snd (trace (exec scripted (tryObserve svc 5) new_session w'))
    = [RangeKeys (leader_query svc);
       EmitError (StoreFailure "range read failed")].
Proof.
  intros w w'. split; [reflexivity |].
  rewrite (@tryObserve_restart Script scripted svc 4 new_session w eq_refl).
  rewrite (@tryObserve_restart Script scripted svc 4 new_session w' eq_refl).
  split; reflexivity.
Defined.

(** ** Who starts a candidacy *)

Lemma final_getLeader W (h : Handler W) el s w :
  final (exec h (getLeader el) s w) = s.
Proof.
  unfold getLeader.
  rewrite (exec_call_bind h (RangeKeys (leader_query el)) (fun a => a)).
  destruct (fst (h (RangeKeys (leader_query el)) w)) as [[| k ks] | why];
    reflexivity.
Qed.

Lemma isCampaigning_onLeaseLost W (h : Handler W) el s w :
  isCampaigning (final (exec h (onLeaseLost el) s w)) = isCampaigning s.
Proof.
  rewrite exec_onLeaseLost, exec_discard_lease. cbv zeta.
  destruct s as [[l |] id key rev camp obs]; cbn [lease final world];
    rewrite exec_initialize; cbn [lease set_lease set_leaseId]; cbv zeta;
    destruct (fst (h (LeaseGrant _) _)); reflexivity.
Qed.

(** X12.  Only [campaign] starts a candidacy: whatever the store answers,
    a session that is not campaigning is still not campaigning after
    [initialize], [proclaim], [resign], [getLeader], the lease-lost
    handler, the new-listener handler and the observation loop. *)
Theorem only_campaign_starts_candidacy W (h : Handler W) el s w :
  isCampaigning s = false ->
  isCampaigning (final (exec h (initialize el) s w)) = false /\
  (forall value,
     isCampaigning (final (exec h (proclaim el value) s w)) = false) /\
  isCampaigning (final (exec h (resign el) s w)) = false /\
  isCampaigning (final (exec h (getLeader el) s w)) = false /\
  isCampaigning (final (exec h (onLeaseLost el) s w)) = false /\
  (forall fuel event,
     isCampaigning (final (exec h (onNewListener el fuel event) s w)) = false) /\
  (forall fuel,
     isCampaigning (final (exec h (tryObserve el fuel) s w)) = false).
Proof.
  intro Hidle.
  split; [| split; [| split; [| split; [| split; [| split]]]]].
  - destruct (initialize_keeps_candidacy h el s w) as [_ [_ Hc]].
    now rewrite Hc.
  - intro value. now rewrite isCampaigning_proclaim.
  - now rewrite exec_resign, Hidle.
  - now rewrite final_getLeader.
  - now rewrite isCampaigning_onLeaseLost.
  - intros fuel event. unfold onNewListener.
    destruct (shouldObserve event); [| exact Hidle].
    now rewrite (proj2 (tryObserve_result_and_final h el fuel s w)).
  - intro fuel.
    now rewrite (proj2 (tryObserve_result_and_final h el fuel s w)).
Qed.

Lemma only_campaign_starts_candidacy_witness :
  isCampaigning
    (final (exec scripted (onLeaseLost svc)
                 (mkSession (Some (LeaseObj 0)) "7" "" "" false false)
                 (1, [GivesString "8"]))) = false /\
  isCampaigning
    (final (exec scripted (proclaim svc "B")
                 (mkSession (Some (LeaseObj 0)) "7" "" "" false false)
                 (1, [GivesTxn (txn_response "9" true)]))) = false.
Proof.
  split.
  - apply (@only_campaign_starts_candidacy Script scripted svc
             (mkSession (Some (LeaseObj 0)) "7" "" "" false false)
             (1, [GivesString "8"]) eq_refl).
  - apply (@only_campaign_starts_candidacy Script scripted svc
             (mkSession (Some (LeaseObj 0)) "7" "" "" false false)
             (1, [GivesTxn (txn_response "9" true)]) eq_refl).
Defined.

(** ** One predecessor *)

Lemma trace_bind_prefix W (h : Handler W) (A B : Type) (m : M A)
    (f : A -> M B) s w :
  exists rest,
    trace (exec h (bind m f) s w) = trace (exec h m s w) ++ rest.
Proof.
  rewrite exec_bind.
  destruct (result (exec h m s w)); run_simpl;
    [eexists; reflexivity | exists []; now rewrite app_nil_r].
Qed.

(** X14.  With exactly one earlier candidate the wait for the turn opens
    the watch on it directly: no point read checks that the key still
    exists, unlike with two or more, where every key is read first. *)
Theorem waitForElected_single_predecessor W (h : Handler W) el s w key :
  fst (h (RangeKeys (waitForElected_query el s)) w) = Resolved [key] ->
  exec h (waitForElected el) s w
    = prepend [(s, RangeKeys (waitForElected_query el s))]
        (exec h (waitForDelete (namespace el) key) s
              (snd (h (RangeKeys (waitForElected_query el s)) w))) /\
  point_reads (trace (exec h (waitForElected el) s w)) = [] /\
  forall key' more W' (h' : Handler W') w',
    fst (h' (RangeKeys (waitForElected_query el s)) w')
      = Resolved (key :: key' :: more) ->
    exists rest,
      trace (exec h' (waitForElected el) s w')
        = (s, RangeKeys (waitForElected_query el s))
            :: (s, GetString (namespace el) key) :: rest.
Proof.
  intro Hread.
  assert (Hrun : forall W' (h' : Handler W') w' keys,
            fst (h' (RangeKeys (waitForElected_query el s)) w')
              = Resolved keys ->
            exec h' (waitForElected el) s w'
              = prepend [(s, RangeKeys (waitForElected_query el s))]
                  (exec h' (match keys with
                            | [] => ret tt
                            | _ => waitForDeletes (namespace el) keys
                            end) s
                        (snd (h' (RangeKeys (waitForElected_query el s)) w')))).
  { intros W' h' w' keys Hkeys. unfold waitForElected.
    rewrite exec_this_bind.
    rewrite (exec_call_bind h' (RangeKeys (waitForElected_query el s))
               (fun a => a)).
    now rewrite Hkeys. }
  split; [apply (Hrun W h w [key] Hread) |]. split.
  - rewrite (Hrun W h w [key] Hread). run_simpl.
    change (waitForDeletes (namespace el) [key])
      with (waitForDelete (namespace el) key).
    rewrite exec_waitForDelete. cbv zeta.
    destruct (fst (h (WatchCreate _ _) _)); reflexivity.
  - intros key' more W' h' w' Hkeys.
    rewrite (Hrun W' h' w' _ Hkeys). run_simpl.
    rewrite exec_waitForDeletes_spec.
    change (waitForDeletes_spec (namespace el) (key :: key' :: more))
      with (bind (waitForDeletes_task (namespace el) key)
                 (fun _ => waitForDeletes_in_order (namespace el)
                             (key' :: more))).
    destruct (trace_bind_prefix h' (waitForDeletes_task (namespace el) key)
                (fun _ => waitForDeletes_in_order (namespace el)
                            (key' :: more))
                s (snd (h' (RangeKeys (waitForElected_query el s)) w')))
      as [rest ->].
    rewrite exec_waitForDeletes_task. cbv zeta.
    destruct (fst (h' (GetString (namespace el) key) _)) as [[v |] | why];
      run_simpl; eexists; reflexivity.
Qed.

Lemma waitForElected_single_predecessor_witness :
  map snd (trace (exec scripted (waitForElected svc) elected_session
                       (1, [GivesKeys ["3"]; Settles; Settles; Settles])))
    = [RangeKeys (waitForElected_query svc elected_session);
       WatchCreate (namespace svc) (WatchKey "3");
       AwaitDeleteOrError (WatcherObj 1);
       WatchCancel (WatcherObj 1)].
Proof.
  destruct (@waitForElected_single_predecessor Script scripted svc
              elected_session
              (1, [GivesKeys ["3"]; Settles; Settles; Settles]) "3" eq_refl)
    as [Hrun _].
  rewrite Hrun. reflexivity.
Defined.

(** ** The lease after [resign] and after a loss *)

Lemma campaign_first_call W (h : Handler W) el value s w :
  lease s <> None ->
  exists rest,
    trace (exec h (campaign el value) s w)
      = (s, TxnCommit (campaign_txn el s value)) :: rest.
Proof.
  intro Hheld. unfold campaign. rewrite exec_bind, exec_initialize.
  destruct (lease s); [| contradiction].
  cbn [result final world trace]. rewrite prepend_nil, exec_this_bind.
  rewrite (exec_call_bind h (TxnCommit (campaign_txn el s value))
             (fun a => a)).
  destruct (fst (h (TxnCommit (campaign_txn el s value)) w));
    eexists; reflexivity.
Qed.

(** X16.  A [resign] whose conditional delete succeeds keeps the lease:
    only the candidacy is cleared, the lease reference and [leaseId] are
    as they were, no revocation is requested, and a later [campaign]
    asks for no grant: its first call is its transaction on the same
    key. *)
Theorem resign_keeps_lease W (h : Handler W) el s w r :
  isCampaigning s = true ->
  lease s <> None ->
  fst (h (TxnCommit (resign_txn el s)) w) = Resolved r ->
  succeeded r = true ->
  let out := exec h (resign el) s w in
  final out = clear_candidacy s /\
  lease (final out) = lease s /\
  leaseId (final out) = leaseId s /\
  isReady (final out) = isReady s /\
  trace out = [(s, TxnCommit (resign_txn el s))] /\
  forall value W' (h' : Handler W') w',
    exists rest,
      trace (exec h' (campaign el value) (final out) w')
        = (final out, TxnCommit (campaign_txn el (final out) value)) :: rest /\
      cmp_key (txn_if (campaign_txn el (final out) value)) = leaseId s.
Proof.
  intros Hc Hheld Hcommit Hs. cbv zeta.
  rewrite exec_resign, Hc. cbv zeta. rewrite Hcommit, Hs.
  cbn [final trace].
  repeat (split; [reflexivity |]).
  intros value W' h' w'.
  destruct (@campaign_first_call W' h' el value (clear_candidacy s) w' Hheld)
    as [rest Hrest].
  exists rest. split; [exact Hrest | reflexivity].
Qed.

Lemma resign_keeps_lease_witness :
  let out := exec scripted (resign svc) elected_session
               (1, [GivesTxn (txn_response "9" true)]) in
  final out = mkSession (Some (LeaseObj 0)) "7" "" "" false false /\
  isReady (final out) = true.
Proof.
  assert (Hheld : lease elected_session <> None) by discriminate.
  destruct (@resign_keeps_lease Script scripted svc elected_session
              (1, [GivesTxn (txn_response "9" true)])
              (txn_response "9" true) eq_refl Hheld eq_refl eq_refl)
    as [Hfinal [_ [_ [Hready _]]]].
  split; [exact Hfinal | exact Hready].
Defined.

(** X15.  After a lost lease has been replaced, the session works on the
    key of the new lease while [leaderKey] and [leaderRevision] are still
    those of the lost candidacy: the transactions of [proclaim] and of
    [resign] address the new [leaseId] and check it against the old
    [leaderRevision]. *)
Theorem after_recovery_keys W (h : Handler W) el s w l id :
  lease s = Some l ->
  let drop := h (LeaseRemoveAllListeners l) w in
  let fresh := h (NewLease (namespace el) (ttl el)) (snd drop) in
  let listen := h (LeaseOnLost (fst fresh)) (snd fresh) in
  fst (h (LeaseGrant (fst fresh)) (snd listen)) = Resolved id ->
  let s' := final (exec h (onLeaseLost el) s w) in
  s' = set_leaseId id (set_lease (Some (fst fresh)) s) /\
  leaderKey s' = leaderKey s /\
  (forall value,
     proclaim_txn el s' value
       = mkTxn (namespace el)
               (mkCompare id "Create" "==" (CmpString (leaderRevision s)))
               [OpPut id value id] []) /\
  resign_txn el s'
    = mkTxn (namespace el)
            (mkCompare id "Create" "==" (CmpString (leaderRevision s)))
            [OpDelete id] [].
Proof.
  intros Hl drop fresh listen Hgrant. cbv zeta.
  rewrite exec_onLeaseLost, exec_discard_lease, Hl. cbv zeta.
  cbn [final world trace]. rewrite exec_initialize.
  cbn [lease set_lease set_leaseId]. cbv zeta.
  fold drop. fold fresh. fold listen. rewrite Hgrant.
  cbn [result final]. repeat split.
Qed.

Lemma after_recovery_keys_witness :
  let s' := final (exec scripted (onLeaseLost svc) elected_session
                        (1, [GivesString "8"])) in
  leaderKey s' = "election/svc/7" /\
  txn_then (resign_txn svc s') = [OpDelete "8"].
Proof.
  destruct (@after_recovery_keys Script scripted svc elected_session
              (1, [GivesString "8"]) (LeaseObj 0) "8" eq_refl eq_refl)
    as [_ [Hkey [_ Hresign]]].
  split; [exact Hkey |]. cbv zeta. now rewrite Hresign.
Defined.
